(** * GoFirestoreApp: the HTTP handlers of [main.go] over a document store

    A shallow embedding of [src/main.go].  The four request handlers, the
    route table built by [main] and the start-up sequence are transcribed as
    functions; the response writer of [net/http] and the Firestore client
    are explicit state that the handlers thread through.

    What the program takes from its libraries is represented as follows.
    - [net/http]: a response writer records headers, the status line and
      the writes to the body; the first write commits status 200 unless a
      status was committed before; [http.Error] commits the given status.
    - [net/http] (routing): the server mux answers the request target [*]
      and paths that are not in canonical form by itself, and hands every
      other request to the handler of the best matching pattern.
    - [encoding/json] (responses): values are rendered as JSON trees.
    - [encoding/json] (request body): the decoder scans the first JSON
      value of the body and stores it in the struct.
    - the Firestore document codec is given by the class [Codecs]: the
      handlers only observe the record it produces and whether it reports
      an error.
    - the Firestore client: a keyed collection of documents, with the
      failures of the network, the fresh identifiers and the order in
      which a document's fields are gone through supplied from outside by
      an [Env] value per request. *)

From Stdlib Require Import Ascii.
From stdpp Require Import gmap strings list fin_maps.

(** ** Data model *)

(** [type User struct { Name string `json:"name"`; Email string `json:"email"` }] *)
Record User := mkUser { Name : string; Email : string }.

(** The zero value of [User], as left by [var user User]. *)
Definition zero_User : User := {| Name := ""; Email := "" |}.

(** Go [error] values that the handlers can meet.  The handlers only test
    [err != nil]; the constructors keep the causes apart so that theorems
    can say which causes are conflated. *)
Inductive error :=
| iterator_Done
| codes_NotFound
| codes_AlreadyExists
| codes_Unavailable
| other_error (msg : string).

(** ** JSON trees and [encoding/json] marshalling *)

#[local] Unset Elimination Schemes.

Inductive json :=
| JNull
| JString (s : string)
| JArray (items : list json)
| JObject (fields : list (string * json)).

(** The Go values that the handlers pass to [Encode]: strings, [User]
    structs, [map[string]interface{}] literals and slices of them.  A slice
    is [None] when nil and [Some l] otherwise, because the encoder renders
    the two differently. *)
Inductive govalue :=
| VString (s : string)
| VUser (u : User)
| VMap (m : list (string * govalue))
| VSlice (s : option (list govalue)).

#[local] Set Elimination Schemes.

(** [append(s, x)]: appending to a nil slice allocates. *)
Definition append (s : option (list govalue)) (x : govalue) : option (list govalue) :=
  match s with
  | None => Some [x]
  | Some l => Some (l ++ [x])
  end.

(** The encoder emits the keys of a map in sorted order. *)
Fixpoint insert_field (kv : string * json) (l : list (string * json)) : list (string * json) :=
  match l with
  | [] => [kv]
  | kv' :: l' =>
      if String.leb kv.1 kv'.1 then kv :: l else kv' :: insert_field kv l'
  end.

Definition sort_fields (l : list (string * json)) : list (string * json) :=
  foldr insert_field [] l.

(** Struct fields are emitted in declaration order under their [json] tags. *)
Definition User_json (u : User) : json :=
  JObject [("name", JString (Name u)); ("email", JString (Email u))].

Fixpoint Marshal (v : govalue) : json :=
  match v with
  | VString s => JString s
  | VUser u => User_json u
  | VMap m => JObject (sort_fields (map (fun kv => (kv.1, Marshal kv.2)) m))
  | VSlice None => JNull
  | VSlice (Some l) => JArray (map Marshal l)
  end.

(** ** [net/http]: requests and the response writer *)

Record Request := mkRequest {
  Method : string;
  Path : string;                      (* r.URL.Path *)
  Query : list (string * string);     (* r.URL.Query(), in order of appearance *)
  Body : string;                      (* the bytes of r.Body *)
  ProtoMajor : Z;                     (* r.ProtoMajor *)
  ProtoMinor : Z                      (* r.ProtoMinor *)
}.

Definition http_MethodGet : string := "GET".
Definition http_MethodHead : string := "HEAD".
Definition http_MethodPost : string := "POST".
Definition http_MethodConnect : string := "CONNECT".
Definition http_MethodOptions : string := "OPTIONS".

(** [r.ProtoAtLeast(major, minor)] *)
Definition ProtoAtLeast (r : Request) (major minor : Z) : bool :=
  bool_decide (major < ProtoMajor r ∨ (ProtoMajor r = major ∧ minor ≤ ProtoMinor r))%Z.

Definition http_StatusOK : Z := 200.
Definition http_StatusMovedPermanently : Z := 301.
Definition http_StatusBadRequest : Z := 400.
Definition http_StatusNotFound : Z := 404.
Definition http_StatusMethodNotAllowed : Z := 405.
Definition http_StatusInternalServerError : Z := 500.

(** [url.Values.Get]: the first value of the key, or the empty string. *)
Fixpoint Values_Get (q : list (string * string)) (key : string) : string :=
  match q with
  | [] => ""
  | (k, v) :: q' => if decide (k = key) then v else Values_Get q' key
  end.

(** One write to the response body: a text, the rendering of a JSON
    value, or the HTML note of [http.Redirect] that links to a URL. *)
Inductive chunk :=
| Text (s : string)
| Json (j : json)
| Moved (url : string).

Record ResponseWriter := mkResponseWriter {
  header : gmap string string;
  wroteHeader : option Z;             (* the committed status, if any *)
  written : list chunk
}.

Definition new_ResponseWriter : ResponseWriter :=
  {| header := ∅; wroteHeader := None; written := [] |}.

Definition Header_Set (w : ResponseWriter) (k v : string) : ResponseWriter :=
  {| header := <[k := v]> (header w); wroteHeader := wroteHeader w; written := written w |}.

Definition Header_Del (w : ResponseWriter) (k : string) : ResponseWriter :=
  {| header := delete k (header w); wroteHeader := wroteHeader w; written := written w |}.

(** [WriteHeader]: only the first call commits a status. *)
Definition WriteHeader (w : ResponseWriter) (code : Z) : ResponseWriter :=
  match wroteHeader w with
  | Some _ => w
  | None => {| header := header w; wroteHeader := Some code; written := written w |}
  end.

(** [w.Write]: commits [StatusOK] first when no status was committed. *)
Definition Writer_Write (w : ResponseWriter) (c : chunk) : ResponseWriter :=
  let w := WriteHeader w http_StatusOK in
  {| header := header w; wroteHeader := wroteHeader w; written := written w ++ [c] |}.

Definition newline : string := String (Ascii.ascii_of_nat 10) EmptyString.

(** [http.Error(w, msg, code)] *)
Definition http_Error (w : ResponseWriter) (msg : string) (code : Z) : ResponseWriter :=
  let w := Header_Del w "Content-Length" in
  let w := Header_Set w "Content-Type" "text/plain; charset=utf-8" in
  let w := Header_Set w "X-Content-Type-Options" "nosniff" in
  let w := WriteHeader w code in
  Writer_Write w (Text (msg +:+ newline)).

(** [json.NewEncoder(w).Encode(v)] *)
Definition Encode (w : ResponseWriter) (v : govalue) : ResponseWriter :=
  Writer_Write w (Json (Marshal v)).

(** The status the client receives: the committed one, or 200 when the
    handler returned without committing any. *)
Definition status (w : ResponseWriter) : Z :=
  default http_StatusOK (wroteHeader w).

(** ** The landing page *)

Definition dq : string := String (Ascii.ascii_of_nat 34) EmptyString.

(** The raw string literal [tmpl] of [homeHandler], byte for byte. *)
Definition tmpl : string :=
  "
	<!DOCTYPE html>
	<html lang=" +:+ dq +:+
  "en" +:+ dq +:+
  ">
	<head>
		<meta charset=" +:+ dq +:+
  "UTF-8" +:+ dq +:+
  ">
		<meta name=" +:+ dq +:+
  "viewport" +:+ dq +:+
  " content=" +:+ dq +:+
  "width=device-width, initial-scale=1.0" +:+ dq +:+
  ">
		<title>Firestore API</title>
		<style>
			body { font-family: Arial, sans-serif; text-align: center; padding: 20px; }
			h1 { color: #2c3e50; }
			.container { max-width: 600px; margin: auto; padding: 20px; border-radius: 10px; background: #f4f4f4; }
			.api-list { text-align: left; margin-top: 20px; }
			a { color: #2980b9; text-decoration: none; font-weight: bold; }
		</style>
	</head>
	<body>
		<div class=" +:+ dq +:+
  "container" +:+ dq +:+
  ">
			<h1>🔥 Welcome to Firestore API</h1>
			<p>This API allows you to store and retrieve users from Firestore.</p>
			<div class=" +:+ dq +:+
  "api-list" +:+ dq +:+
  ">
				<h3>Available Endpoints:</h3>
				<ul>
					<li><strong>POST</strong> <a href=" +:+ dq +:+
  "/addUser" +:+ dq +:+
  ">/addUser</a> - Add a user (use Postman or curl)</li>
					<li><strong>GET</strong> <a href=" +:+ dq +:+
  "/listUsers" +:+ dq +:+
  ">/listUsers</a> - List all users</li>
					<li><strong>GET</strong> <a href=" +:+ dq +:+
  "/getUser?id=yourUserID" +:+ dq +:+
  ">/getUser?id=yourUserID</a> - Get user by ID</li>
				</ul>
			</div>
		</div>
	</body>
	</html>
	".
(** ** Assignments to the fields of a [User]

    Both decoders, of the request body and of a stored document, act on
    the struct behind a pointer by assigning to its fields. *)

Inductive assign :=
| set_Name (s : string)
| set_Email (s : string).

Definition do_assign (u : User) (a : assign) : User :=
  match a with
  | set_Name s => {| Name := s; Email := Email u |}
  | set_Email s => {| Name := Name u; Email := s |}
  end.

Definition assigns_Name (a : assign) : bool :=
  match a with set_Name _ => true | set_Email _ => false end.

Definition assigns_Email (a : assign) : bool :=
  match a with set_Name _ => false | set_Email _ => true end.

(** ** [encoding/json]: decoding the request body

    [json.NewDecoder(r.Body).Decode(&user)] reads the first JSON value of
    the body and stores it in the struct.  The value is scanned first, up
    to its end and no further; it is stored only if the scan succeeds. *)

(** The outcome of scanning a piece of JSON text. *)
Inductive scanned (A : Type) :=
| Got (a : A) (rest : string)
| Bad                                 (* a syntax error, or the text ends too early *)
| Starved.                            (* the recursion budget is used up *)

Arguments Got {A} a rest.
Arguments Bad {A}.
Arguments Starved {A}.

(** A scanned value.  Strings and keys are kept as written, between their
    quotes; numbers and the elements of arrays are only checked. *)
#[local] Unset Elimination Schemes.

Inductive parsed :=
| Pnull
| Ptrue
| Pfalse
| Pnumber
| Pstring (raw : string)
| Parray
| Pobject (members : list (string * parsed)).

#[local] Set Elimination Schemes.

Definition byte (c : ascii) : N := N_of_ascii c.

Definition backslash : ascii := ascii_of_nat 92.
Definition quote : ascii := ascii_of_nat 34.

Definition is_space (c : ascii) : bool :=
  bool_decide (byte c = 32%N) || bool_decide (byte c = 9%N) ||
  bool_decide (byte c = 13%N) || bool_decide (byte c = 10%N).

Definition is_digit (c : ascii) : bool := (48 <=? byte c)%N && (byte c <=? 57)%N.

Definition is_hex (c : ascii) : bool :=
  is_digit c || ((97 <=? byte c)%N && (byte c <=? 102)%N)
             || ((65 <=? byte c)%N && (byte c <=? 70)%N).

Fixpoint skip_space (s : string) : string :=
  match s with
  | String c s' => if is_space c then skip_space s' else s
  | EmptyString => s
  end.

Fixpoint skip_digits (s : string) : string :=
  match s with
  | String c s' => if is_digit c then skip_digits s' else s
  | EmptyString => s
  end.

(** The characters that may follow a backslash, [u] apart. *)
Definition is_simple_escape (c : ascii) : bool :=
  bool_decide (c ∈ [quote; backslash; "/"; "b"; "f"; "n"; "r"; "t"]%char).

Definition keep (pre : string) (r : option (string * string)) : option (string * string) :=
  match r with
  | Some (raw, rest) => Some (pre +:+ raw, rest)
  | None => None
  end.

(** A string, from behind its opening quote to its closing quote: the
    text between the quotes and the text behind the closing quote. *)
Fixpoint scan_string (s : string) : option (string * string) :=
  match s with
  | EmptyString => None
  | String c s1 =>
      if decide (c = quote) then Some (EmptyString, s1)
      else if decide (c = backslash) then
        match s1 with
        | EmptyString => None
        | String e s2 =>
            if is_simple_escape e then
              keep (String c (String e EmptyString)) (scan_string s2)
            else if decide (e = "u"%char) then
              match s2 with
              | String h1 (String h2 (String h3 (String h4 s6))) =>
                  if is_hex h1 && is_hex h2 && is_hex h3 && is_hex h4 then
                    keep (String c (String e (String h1 (String h2 (String h3
                            (String h4 EmptyString)))))) (scan_string s6)
                  else None
              | _ => None
              end
            else None
        end
      else if (byte c <? 32)%N then None
      else keep (String c EmptyString) (scan_string s1)
  end.

(** The digits of a number that must be there: at least one. *)
Definition digits1 (s : string) : option string :=
  match s with
  | String d s' => if is_digit d then Some (skip_digits s') else None
  | EmptyString => None
  end.

(** A number: the text behind it. *)
Definition scan_number (s : string) : option string :=
  let s := match s with
           | String c s' => if decide (c = "-"%char) then s' else s
           | EmptyString => s
           end in
  let after_int :=
    match s with
    | String c s1 =>
        if decide (c = "0"%char) then Some s1
        else if is_digit c then Some (skip_digits s1)
        else None
    | EmptyString => None
    end in
  let after_frac :=
    match after_int with
    | Some (String c s3) => if decide (c = "."%char) then digits1 s3 else after_int
    | _ => after_int
    end in
  match after_frac with
  | Some (String c s6) =>
      if bool_decide (c = "e"%char) || bool_decide (c = "E"%char) then
        match s6 with
        | String g s7 =>
            if bool_decide (g = "+"%char) || bool_decide (g = "-"%char) then digits1 s7
            else digits1 s6
        | EmptyString => None
        end
      else after_frac
  | _ => after_frac
  end.

Fixpoint drop_string (n : nat) (s : string) : string :=
  match n, s with
  | S n', String _ s' => drop_string n' s'
  | _, _ => s
  end.

(** The deepest nesting of arrays and objects that the scanner accepts. *)
Definition maxNestingDepth : N := 10000.

(** One value at the head of the text; the members of an object from a
    key on; and what follows an element of an array, up to the bracket
    that closes it.  [depth] counts the arrays and objects that are open. *)
Fixpoint parse_value (fuel : nat) (depth : N) (s : string) {struct fuel} : scanned parsed :=
  match fuel with
  | O => Starved
  | S fuel =>
      match s with
      | EmptyString => Bad
      | String c s1 =>
          if decide (c = "{"%char) then
            if (maxNestingDepth <? N.succ depth)%N then Bad
            else
              match skip_space s1 with
              | EmptyString => Bad
              | String c2 s2 =>
                  if decide (c2 = "}"%char) then Got (Pobject []) s2
                  else
                    match parse_members fuel (N.succ depth) (String c2 s2) with
                    | Got ms rest => Got (Pobject ms) rest
                    | Bad => Bad
                    | Starved => Starved
                    end
              end
          else if decide (c = "["%char) then
            if (maxNestingDepth <? N.succ depth)%N then Bad
            else
              match skip_space s1 with
              | EmptyString => Bad
              | String c2 s2 =>
                  if decide (c2 = "]"%char) then Got Parray s2
                  else
                    match parse_value fuel (N.succ depth) (String c2 s2) with
                    | Got _ s3 =>
                        match parse_elements fuel (N.succ depth) s3 with
                        | Got _ rest => Got Parray rest
                        | Bad => Bad
                        | Starved => Starved
                        end
                    | Bad => Bad
                    | Starved => Starved
                    end
              end
          else if decide (c = quote) then
            match scan_string s1 with
            | Some (raw, rest) => Got (Pstring raw) rest
            | None => Bad
            end
          else if bool_decide (c = "-"%char) || is_digit c then
            match scan_number s with
            | Some rest => Got Pnumber rest
            | None => Bad
            end
          else if String.prefix "true" s then Got Ptrue (drop_string 4 s)
          else if String.prefix "false" s then Got Pfalse (drop_string 5 s)
          else if String.prefix "null" s then Got Pnull (drop_string 4 s)
          else Bad
      end
  end
with parse_members (fuel : nat) (depth : N) (s : string) {struct fuel}
  : scanned (list (string * parsed)) :=
  match fuel with
  | O => Starved
  | S fuel =>
      match s with
      | EmptyString => Bad
      | String c s1 =>
          if decide (c = quote) then
            match scan_string s1 with
            | None => Bad
            | Some (key, s2) =>
                match skip_space s2 with
                | EmptyString => Bad
                | String c3 s3 =>
                    if decide (c3 = ":"%char) then
                      match parse_value fuel depth (skip_space s3) with
                      | Bad => Bad
                      | Starved => Starved
                      | Got v s4 =>
                          match skip_space s4 with
                          | EmptyString => Bad
                          | String c5 s5 =>
                              if decide (c5 = ","%char) then
                                match parse_members fuel depth (skip_space s5) with
                                | Got ms rest => Got ((key, v) :: ms) rest
                                | Bad => Bad
                                | Starved => Starved
                                end
                              else if decide (c5 = "}"%char) then Got [(key, v)] s5
                              else Bad
                          end
                      end
                    else Bad
                end
            end
          else Bad
      end
  end
with parse_elements (fuel : nat) (depth : N) (s : string) {struct fuel} : scanned unit :=
  match fuel with
  | O => Starved
  | S fuel =>
      match skip_space s with
      | EmptyString => Bad
      | String c2 s2 =>
          if decide (c2 = ","%char) then
            match parse_value fuel depth (skip_space s2) with
            | Got _ s3 => parse_elements fuel depth s3
            | Bad => Bad
            | Starved => Starved
            end
          else if decide (c2 = "]"%char) then Got tt s2
          else Bad
      end
  end.

(** [dec.readValue]: the first value of the body, blanks before it
    skipped.  The budget is the length of the body and one. *)
Definition readValue (body : string) : scanned parsed :=
  parse_value (S (String.length body)) 0 (skip_space body).

(** *** Unquoting *)

Definition hex_digit (c : ascii) : N :=
  if is_digit c then (byte c - 48)%N
  else if (97 <=? byte c)%N then (byte c - 87)%N
  else (byte c - 55)%N.

Definition getu4 (h1 h2 h3 h4 : ascii) : N :=
  (((hex_digit h1 * 16 + hex_digit h2) * 16 + hex_digit h3) * 16 + hex_digit h4)%N.

Definition chr (n : N) : string := String (ascii_of_N n) EmptyString.

(** [utf8.EncodeRune] on a code point that is no surrogate. *)
Definition EncodeRune (r : N) : string :=
  if (r <? 128)%N then chr r
  else if (r <? 2048)%N then chr (192 + r / 64) +:+ chr (128 + r mod 64)
  else if (r <? 65536)%N then
    chr (224 + r / 4096) +:+ chr (128 + (r / 64) mod 64) +:+ chr (128 + r mod 64)
  else
    chr (240 + r / 262144) +:+ chr (128 + (r / 4096) mod 64) +:+
    chr (128 + (r / 64) mod 64) +:+ chr (128 + r mod 64).

(** U+FFFD, written in place of what is no character. *)
Definition ReplacementChar : string := EncodeRune 65533.

Definition IsSurrogate (r : N) : bool := (55296 <=? r)%N && (r <? 57344)%N.

(** [utf16.DecodeRune]: the code point of a surrogate pair, if it is one. *)
Definition utf16_DecodeRune (r1 r2 : N) : option N :=
  if (55296 <=? r1)%N && (r1 <? 56320)%N && (56320 <=? r2)%N && (r2 <? 57344)%N
  then Some ((r1 - 55296) * 1024 + (r2 - 56320) + 65536)%N
  else None.

Definition cont (c : ascii) : bool := (128 <=? byte c)%N && (byte c <=? 191)%N.

(** Well-formed UTF-8 sequences of two, three and four bytes. *)
Definition utf8_2 (c1 c2 : ascii) : bool :=
  (194 <=? byte c1)%N && (byte c1 <=? 223)%N && cont c2.

Definition utf8_3 (c1 c2 c3 : ascii) : bool :=
  (224 <=? byte c1)%N && (byte c1 <=? 239)%N && cont c2 && cont c3 &&
  (if decide (byte c1 = 224%N) then (160 <=? byte c2)%N
   else if decide (byte c1 = 237%N) then (byte c2 <=? 159)%N
   else true).

Definition utf8_4 (c1 c2 c3 c4 : ascii) : bool :=
  (240 <=? byte c1)%N && (byte c1 <=? 244)%N && cont c2 && cont c3 && cont c4 &&
  (if decide (byte c1 = 240%N) then (144 <=? byte c2)%N
   else if decide (byte c1 = 244%N) then (byte c2 <=? 143)%N
   else true).

Definition escaped (e : ascii) : ascii :=
  if decide (e = "b"%char) then ascii_of_nat 8
  else if decide (e = "f"%char) then ascii_of_nat 12
  else if decide (e = "n"%char) then ascii_of_nat 10
  else if decide (e = "r"%char) then ascii_of_nat 13
  else if decide (e = "t"%char) then ascii_of_nat 9
  else e.

(** [unquote] on the text between the quotes of a scanned string: escapes
    are replaced by what they stand for, and bytes that are not
    well-formed UTF-8 by U+FFFD. *)
Fixpoint unquote (raw : string) : string :=
  match raw with
  | EmptyString => EmptyString
  | String c s1 =>
      if decide (c = backslash) then
        match s1 with
        | EmptyString => EmptyString
        | String e s2 =>
            if decide (e = "u"%char) then
              match s2 with
              | String h1 (String h2 (String h3 (String h4 s6))) =>
                  let rr := getu4 h1 h2 h3 h4 in
                  if IsSurrogate rr then
                    match s6 with
                    | String b (String u (String k1 (String k2 (String k3 (String k4 s12))))) =>
                        if bool_decide (b = backslash) && bool_decide (u = "u"%char) &&
                           is_hex k1 && is_hex k2 && is_hex k3 && is_hex k4 then
                          match utf16_DecodeRune rr (getu4 k1 k2 k3 k4) with
                          | Some r => EncodeRune r +:+ unquote s12
                          | None => ReplacementChar +:+ unquote s6
                          end
                        else ReplacementChar +:+ unquote s6
                    | _ => ReplacementChar +:+ unquote s6
                    end
                  else EncodeRune rr +:+ unquote s6
              | _ => EmptyString
              end
            else String (escaped e) (unquote s2)
        end
      else if (byte c <? 128)%N then String c (unquote s1)
      else
        match s1 with
        | String c2 s2 =>
            if utf8_2 c c2 then String c (String c2 (unquote s2))
            else
              match s2 with
              | String c3 s3 =>
                  if utf8_3 c c2 c3 then String c (String c2 (String c3 (unquote s3)))
                  else
                    match s3 with
                    | String c4 s4 =>
                        if utf8_4 c c2 c3 c4 then
                          String c (String c2 (String c3 (String c4 (unquote s4))))
                        else ReplacementChar +:+ unquote s1
                    | EmptyString => ReplacementChar +:+ unquote s1
                    end
              | EmptyString => ReplacementChar +:+ unquote s1
              end
        | EmptyString => ReplacementChar
        end
  end.

(** *** Storing into the struct *)

Definition lower (c : ascii) : ascii :=
  if (65 <=? byte c)%N && (byte c <=? 90)%N then ascii_of_N (byte c + 32) else c.

Fixpoint lower_string (s : string) : string :=
  match s with
  | EmptyString => EmptyString
  | String c s' => String (lower c) (lower_string s')
  end.

(** The field of [User] that a key names: the one whose [json] tag is the
    key, letter case apart. *)
Definition field_of_key (key : string) : option (string → assign) :=
  let k := lower_string (unquote key) in
  if decide (k = "name") then Some set_Name
  else if decide (k = "email") then Some set_Email
  else None.

Definition UnmarshalTypeError : error :=
  other_error "json: cannot unmarshal value into Go value".

(** The members of an object, in order.  A string is assigned, [null]
    leaves the field as it is, a key that names no field is passed over;
    any other value is a type error, of which the first is reported after
    all members have been gone through. *)
Fixpoint store_members (ms : list (string * parsed)) (user : User) : User * option error :=
  match ms with
  | [] => (user, None)
  | (key, v) :: ms' =>
      match field_of_key key with
      | None => store_members ms' user
      | Some set =>
          match v with
          | Pstring raw => store_members ms' (do_assign user (set (unquote raw)))
          | Pnull => store_members ms' user
          | _ => ((store_members ms' user).1, Some UnmarshalTypeError)
          end
      end
  end.

(** [d.unmarshal] into a [User]: an object is stored member by member,
    [null] changes nothing, any other value is a type error. *)
Definition unmarshal (v : parsed) (user : User) : User * option error :=
  match v with
  | Pobject ms => store_members ms user
  | Pnull => (user, None)
  | _ => (user, Some UnmarshalTypeError)
  end.

(** [json.NewDecoder(r.Body).Decode(&user)] *)
Definition Decode (body : string) (user : User) : User * option error :=
  match readValue body with
  | Got v _ => unmarshal v user
  | Bad => (user, Some (other_error "json: invalid or incomplete value"))
  | Starved => (user, Some (other_error "json: invalid or incomplete value"))
  end.

(** ** The Firestore document codec

    [fields_of_User] is the document that the Firestore client stores for
    a [User] struct.  [DataTo_plan] is what [doc.DataTo(&user)] does with
    a stored document: the assignments it performs on the struct, in
    order, and the error it returns.  The library goes through the fields
    of the document in the order in which Go ranges over a map, which
    differs from one time to the next, and it stops at the first field
    that does not fit; the second argument of [DataTo_plan] stands for
    that order. *)

Class Codecs := {
  DocData : Type;
  fields_of_User : User → DocData;
  DataTo_plan : DocData → nat → list assign * option error
}.

(** ** The document store

    The Firestore client is a collaborator outside the repository.  A
    store maps collection names to documents keyed by identifier.  What
    the store cannot decide by itself comes from the environment of the
    request: a failure of the call in transit, the identifier drawn for a
    created document, the point at which a scan breaks, and, for the
    snapshot with a given number among those the request receives, the
    order in which its fields are gone through when it is decoded. *)

Record Env := mkEnv {
  rpc_error : option error;
  id_head : ascii;
  id_tail : string;
  scan_error : option (nat * error);
  range_seed : nat → nat
}.

(** Modelled from the spec: the identifier that the store assigns at
    creation is "opaque" (spec section 3) and "non-empty" (spec section
    8): a first character and any others. *)
Definition new_id (env : Env) : string := String (id_head env) (id_tail env).

Record DocumentRef := mkDocumentRef { ID : string }.

(** A snapshot carries the fields read from the store and the order in
    which they will be gone through when it is decoded.  Go settles that
    order when the decoding ranges over the fields; the handlers decode
    each snapshot once. *)
Record DocumentSnapshot `{Codecs} := mkDocumentSnapshot {
  Ref : DocumentRef;
  data : DocData;
  seed : nat
}.

(** The store calls a handler makes, kept as a trace next to the store. *)
Inductive call :=
| call_Add (coll : string) (u : User)
| call_Get (coll id : string)
| call_Documents (coll : string).

Record World `{Codecs} := mkWorld {
  firestore : gmap string (gmap string DocData);
  calls : list call
}.

Definition collection `{Codecs} (σ : World) (coll : string) : gmap string DocData :=
  default ∅ (firestore σ !! coll).

Definition record_call `{Codecs} (c : call) (σ : World) : World :=
  {| firestore := firestore σ; calls := calls σ ++ [c] |}.

(** Modelled from the spec: the store's "create-with-generated-id"
    operation (spec section 2), called as
    [client.Collection(coll).Add(ctx, user)].  The document is created
    under the identifier drawn; the create is refused when the identifier
    is taken, and nothing is stored when the call fails. *)
Definition Collection_Add `{Codecs} (env : Env) (coll : string) (user : User) (σ : World)
  : (DocumentRef + error) * World :=
  let σ := record_call (call_Add coll user) σ in
  match rpc_error env with
  | Some e => (inr e, σ)
  | None =>
      match collection σ coll !! new_id env with
      | Some _ => (inr codes_AlreadyExists, σ)
      | None =>
          (inl {| ID := new_id env |},
           {| firestore :=
                <[coll := <[new_id env := fields_of_User user]> (collection σ coll)]> (firestore σ);
              calls := calls σ |})
      end
  end.

(** Modelled from the spec: the store's "get-by-id" operation (spec
    section 2), called as [client.Collection(coll).Doc(id).Get(ctx)].  It
    fails when the call fails in transit and when no document has the
    identifier. *)
Definition Doc_Get `{Codecs} (env : Env) (coll id : string) (σ : World)
  : (DocumentSnapshot + error) * World :=
  let σ := record_call (call_Get coll id) σ in
  match rpc_error env with
  | Some e => (inr e, σ)
  | None =>
      match collection σ coll !! id with
      | Some d => (inl {| Ref := {| ID := id |}; data := d; seed := range_seed env 0 |}, σ)
      | None => (inr codes_NotFound, σ)
      end
  end.

(** A document iterator is the sequence of results its [Next] will give;
    once the sequence is used up, [Next] reports [iterator.Done]. *)
Definition DocumentIterator `{Codecs} : Type := list (DocumentSnapshot + error).

Definition Next `{Codecs} (iter : DocumentIterator)
  : (DocumentSnapshot + error) * DocumentIterator :=
  match iter with
  | [] => (inr iterator_Done, [])
  | x :: rest => (x, rest)
  end.

(** The snapshot of the document that a scan yields in place [i]. *)
Definition snapshot_of `{Codecs} (env : Env) (i : nat) (kv : string * DocData)
  : DocumentSnapshot :=
  {| Ref := {| ID := kv.1 |}; data := kv.2; seed := range_seed env i |}.

(** Modelled from the spec: the store's "collection-scan" operation (spec
    section 2), called as [client.Collection(coll).Documents(ctx)].  The
    iterator yields the documents of the collection, all of them or those
    before the point at which the scan breaks. *)
Definition Collection_Documents `{Codecs} (env : Env) (coll : string) (σ : World)
  : DocumentIterator * World :=
  let σ := record_call (call_Documents coll) σ in
  let docs := imap (snapshot_of env) (map_to_list (collection σ coll)) in
  match scan_error env with
  | None => (inl <$> docs, σ)
  | Some (n, e) => ((inl <$> take n docs) ++ [inr e], σ)
  end.

(** [doc.DataTo(&user)] *)
Definition DataTo `{Codecs} (doc : DocumentSnapshot) (user : User) : User * option error :=
  let '(plan, err) := DataTo_plan (data doc) (seed doc) in
  (foldl do_assign user plan, err).

(** ** The handlers of [main.go] *)

Definition HandlerFunc `{Codecs} : Type :=
  Env → ResponseWriter → Request → World → ResponseWriter * World.

(** Add a user to Firestore (POST /addUser) *)
Definition addUserHandler `{Codecs} : HandlerFunc := fun env w r σ =>
  if decide (Method r ≠ http_MethodPost) then
    (http_Error w "Invalid request method" http_StatusMethodNotAllowed, σ)
  else
    let '(user, err) := Decode (Body r) zero_User in
    match err with
    | Some _ => (http_Error w "Invalid request body" http_StatusBadRequest, σ)
    | None =>
        let '(res, σ) := Collection_Add env "users" user σ in
        match res with
        | inr _ => (http_Error w "Error adding user" http_StatusInternalServerError, σ)
        | inl docRef =>
            let response :=
              VMap [("message", VString "User added successfully");
                    ("id", VString (ID docRef));
                    ("user", VUser user)] in
            let w := Header_Set w "Content-Type" "application/json" in
            (Encode w response, σ)
        end
    end.

(** Get a user by Firestore document ID (GET /getUser?id=docID) *)
Definition getUserHandler `{Codecs} : HandlerFunc := fun env w r σ =>
  if decide (Method r ≠ http_MethodGet) then
    (http_Error w "Invalid request method" http_StatusMethodNotAllowed, σ)
  else
    let userID := Values_Get (Query r) "id" in
    if decide (userID = "") then
      (http_Error w "User ID required" http_StatusBadRequest, σ)
    else
      let '(res, σ) := Doc_Get env "users" userID σ in
      match res with
      | inr _ => (http_Error w "User not found" http_StatusNotFound, σ)
      | inl doc =>
          let '(user, _) := DataTo doc zero_User in
          let response := VMap [("id", VString userID); ("user", VUser user)] in
          let w := Header_Set w "Content-Type" "application/json" in
          (Encode w response, σ)
      end.

(** The body of the [for] loop of [listUsersHandler]: one element of
    [users] per document. *)
Definition list_entry `{Codecs} (doc : DocumentSnapshot) : govalue :=
  let '(user, _) := DataTo doc zero_User in
  VMap [("id", VString (ID (Ref doc))); ("user", VUser user)].

(** The [for] loop of [listUsersHandler]: [Next] until it reports an error. *)
Fixpoint list_loop `{Codecs} (iter : DocumentIterator) (users : option (list govalue))
  : option (list govalue) :=
  match iter with
  | [] => users                                   (* Next: iterator.Done; break *)
  | inr _ :: _ => users                           (* err != nil; break *)
  | inl doc :: rest => list_loop rest (append users (list_entry doc))
  end.

(** List all users from Firestore (GET /listUsers) *)
Definition listUsersHandler `{Codecs} : HandlerFunc := fun env w r σ =>
  if decide (Method r ≠ http_MethodGet) then
    (http_Error w "Invalid request method" http_StatusMethodNotAllowed, σ)
  else
    let users := Some [] in
    let '(iter, σ) := Collection_Documents env "users" σ in
    let users := list_loop iter users in
    let w := Header_Set w "Content-Type" "application/json" in
    (Encode w (VSlice users), σ).

(** [t.Execute(w, nil)] for a template of plain HTML, with no actions and
    no comments, as [tmpl] is: the text is written as it stands. *)
Definition template_Execute (w : ResponseWriter) (text : string) : ResponseWriter :=
  Writer_Write w (Text text).

(** Home page handler (GET /) *)
Definition homeHandler `{Codecs} : HandlerFunc := fun env w r σ =>
  (template_Execute w tmpl, σ).

(** ** [http.ServeMux] *)

Definition ServeMux `{Codecs} : Type := list (string * HandlerFunc).

Fixpoint ends_in_slash (s : string) : bool :=
  match s with
  | EmptyString => false
  | String c EmptyString => bool_decide (c = "/"%char)
  | String _ s' => ends_in_slash s'
  end.

(** The elements of a path: the texts between its slashes. *)
Fixpoint elements (s : string) : list string :=
  match s with
  | EmptyString => [EmptyString]
  | String c s' =>
      if decide (c = "/"%char) then EmptyString :: elements s'
      else
        match elements s' with
        | e :: es => String c e :: es
        | [] => [String c EmptyString]
        end
  end.

(** One element of a rooted path as [path.Clean] meets it: an empty
    element and [.] are dropped, [..] drops the element kept last, if there
    is one. *)
Definition clean_element (kept : list string) (e : string) : list string :=
  if decide (e = "") then kept
  else if decide (e = ".") then kept
  else if decide (e = "..") then removelast kept
  else kept ++ [e].

(** [path.Clean] on a path that begins with a slash. *)
Definition path_Clean (p : string) : string :=
  "/" +:+ String.concat "/" (foldl clean_element [] (elements p)).

(** [cleanPath]: the canonical form of a request path.  It begins with a
    slash, has no empty element, no [.] and no [..], and keeps a slash at
    the end. *)
Definition cleanPath (p : string) : string :=
  if decide (p = "") then "/"
  else
    let p := if String.prefix "/" p then p else "/" +:+ p in
    let np := path_Clean p in
    if ends_in_slash p && negb (bool_decide (np = "/")) then np +:+ "/" else np.

(** The entry registered under exactly this path, if any. *)
Fixpoint exact_entry `{Codecs} (mux : ServeMux) (path : string) : option HandlerFunc :=
  match mux with
  | [] => None
  | (pattern, h) :: mux' =>
      if decide (pattern = path) then Some h else exact_entry mux' path
  end.

(** The longest pattern ending in a slash that is a prefix of the path. *)
Fixpoint subtree_entry `{Codecs} (mux : ServeMux) (path : string)
  : option (string * HandlerFunc) :=
  match mux with
  | [] => None
  | (pattern, h) :: mux' =>
      let best := subtree_entry mux' path in
      if ends_in_slash pattern && String.prefix pattern path then
        match best with
        | Some (pattern', h') =>
            if decide (String.length pattern < String.length pattern')
            then best else Some (pattern, h)
        | None => Some (pattern, h)
        end
      else best
  end.

(** [mux.match]: an exact match first, then the longest subtree pattern. *)
Definition mux_match `{Codecs} (mux : ServeMux) (path : string) : option HandlerFunc :=
  match exact_entry mux path with
  | Some h => Some h
  | None => snd <$> subtree_entry mux path
  end.

(** [http.NotFound] *)
Definition http_NotFound (w : ResponseWriter) : ResponseWriter :=
  http_Error w "404 page not found" http_StatusNotFound.

Definition NotFoundHandler `{Codecs} : HandlerFunc := fun env w r σ =>
  (http_NotFound w, σ).

(** [http.Redirect(w, r, url, code)].  The Location header and the note
    carry the URL as the library renders it, with the query of the
    request; here they are recorded by the path the URL points to. *)
Definition http_Redirect (w : ResponseWriter) (r : Request) (url : string) (code : Z)
  : ResponseWriter :=
  let hadCT := bool_decide (is_Some (header w !! "Content-Type")) in
  let w := Header_Set w "Location" url in
  let w :=
    if negb hadCT && (bool_decide (Method r = http_MethodGet) ||
                      bool_decide (Method r = http_MethodHead))
    then Header_Set w "Content-Type" "text/html; charset=utf-8" else w in
  let w := WriteHeader w code in
  if negb hadCT && bool_decide (Method r = http_MethodGet)
  then Writer_Write w (Moved url) else w.

Definition RedirectHandler `{Codecs} (url : string) (code : Z) : HandlerFunc :=
  fun env w r σ => (http_Redirect w r url code, σ).

(** [mux.shouldRedirectRLocked]: a path that is not registered itself,
    does not end in a slash and is registered with a slash added. *)
Definition shouldRedirect `{Codecs} (mux : ServeMux) (path : string) : bool :=
  if bool_decide (is_Some (exact_entry mux path)) then false
  else if decide (path = "") then false
  else bool_decide (is_Some (exact_entry mux (path +:+ "/"))) && negb (ends_in_slash path).

(** [mux.handler]: the handler of the matching pattern, or the not-found
    handler.  The patterns of [main] name no host. *)
Definition mux_handler `{Codecs} (mux : ServeMux) (path : string) : HandlerFunc :=
  match mux_match mux path with
  | Some h => h
  | None => NotFoundHandler
  end.

(** [mux.Handler]: the handler for a request.  A CONNECT request is
    matched by its path as it stands.  The path of any other request, in
    its decoded form [r.URL.Path], is brought to canonical form first, and
    a request whose path was not in that form is answered with a redirect
    to it. *)
Definition mux_Handler `{Codecs} (mux : ServeMux) (r : Request) : HandlerFunc :=
  if decide (Method r = http_MethodConnect) then
    if shouldRedirect mux (Path r)
    then RedirectHandler (Path r +:+ "/") http_StatusMovedPermanently
    else mux_handler mux (Path r)
  else
    let path := cleanPath (Path r) in
    if shouldRedirect mux path
    then RedirectHandler (path +:+ "/") http_StatusMovedPermanently
    else if decide (path ≠ Path r)
    then RedirectHandler path http_StatusMovedPermanently
    else mux_handler mux (Path r).

(** [mux.ServeHTTP].  The request target [*] is the one target whose
    path is [*]; it is refused before any handler is looked for. *)
Definition ServeHTTP `{Codecs} (mux : ServeMux) : HandlerFunc := fun env w r σ =>
  if decide (Path r = "*") then
    let w := if ProtoAtLeast r 1 1 then Header_Set w "Connection" "close" else w in
    (WriteHeader w http_StatusBadRequest, σ)
  else mux_Handler mux r env w r σ.

(** The server's answer to [OPTIONS *], given without the mux. *)
Definition globalOptionsHandler `{Codecs} : HandlerFunc := fun env w r σ =>
  (Header_Set w "Content-Length" "0", σ).

(** ** Start-up: [initFirestore] and [main] *)

(** What the process does that can be seen from outside. *)
Inductive event :=
| Println (s : string)
| Fatal (s : string) (err : error)
| Listen (addr : string).

(** What start-up meets outside the program: the result of
    [firestore.NewClient] and the error of [http.ListenAndServe], if it
    returns at all. *)
Record Boot := mkBoot {
  NewClient_err : option error;
  ListenAndServe_err : option error
}.

Record Process `{Codecs} := mkProcess {
  client : bool;                      (* is the global [client] set *)
  DefaultServeMux : ServeMux;
  events : list event;
  serving : option string;            (* the address being served *)
  exit_code : option Z                (* set once the process has exited *)
}.

Definition start `{Codecs} : Process :=
  {| client := false; DefaultServeMux := []; events := []; serving := None;
     exit_code := None |}.

(** Sequencing: an exited process runs nothing further. *)
Definition and_then `{Codecs} (a b : Process → Process) : Process → Process :=
  fun p =>
    let p' := a p in
    match exit_code p' with
    | Some _ => p'
    | None => b p'
    end.

Notation "a >>> b" := (and_then a b) (at level 65, right associativity).

Definition emit `{Codecs} (e : event) (p : Process) : Process :=
  {| client := client p; DefaultServeMux := DefaultServeMux p;
     events := events p ++ [e]; serving := serving p; exit_code := exit_code p |}.

Definition fmt_Println `{Codecs} (s : string) : Process → Process := emit (Println s).

(** [log.Fatal] and [log.Fatalf]: print the text and the error, then
    [os.Exit(1)]. *)
Definition log_Fatalf `{Codecs} (s : string) (err : error) (p : Process) : Process :=
  let p := emit (Fatal s err) p in
  {| client := client p; DefaultServeMux := DefaultServeMux p;
     events := events p; serving := None; exit_code := Some 1%Z |}.

Definition set_client `{Codecs} (p : Process) : Process :=
  {| client := true; DefaultServeMux := DefaultServeMux p;
     events := events p; serving := serving p; exit_code := exit_code p |}.

Definition http_HandleFunc `{Codecs} (pattern : string) (h : HandlerFunc) (p : Process)
  : Process :=
  {| client := client p; DefaultServeMux := DefaultServeMux p ++ [(pattern, h)];
     events := events p; serving := serving p; exit_code := exit_code p |}.

(** [log.Fatal(http.ListenAndServe(addr, nil))]: the call binds the address
    and serves; the process is ended only if the call returns. *)
Definition ListenAndServe_or_Fatal `{Codecs} (boot : Boot) (addr : string) (p : Process)
  : Process :=
  let p := emit (Listen addr) p in
  match ListenAndServe_err boot with
  | Some err => log_Fatalf "" err p
  | None =>
      {| client := client p; DefaultServeMux := DefaultServeMux p;
         events := events p; serving := Some addr; exit_code := exit_code p |}
  end.

(** Initialize Firestore *)
Definition initFirestore `{Codecs} (boot : Boot) : Process → Process :=
  match NewClient_err boot with
  | Some err => log_Fatalf "Failed to initialize Firestore: " err
  | None => set_client >>> fmt_Println "✅ Connected to Firestore!"
  end.

Definition main `{Codecs} (boot : Boot) : Process :=
  (initFirestore boot >>>
   http_HandleFunc "/" homeHandler >>>
   http_HandleFunc "/addUser" addUserHandler >>>
   http_HandleFunc "/getUser" getUserHandler >>>
   http_HandleFunc "/listUsers" listUsersHandler >>>
   fmt_Println "🚀 Server started on http://localhost:8000/" >>>
   ListenAndServe_or_Fatal boot ":8000") start.

(** ** The running server *)

Definition boot_ok : Boot := {| NewClient_err := None; ListenAndServe_err := None |}.

(** One request against the routes registered by [main], answered on a
    fresh response writer.  The server answers [OPTIONS *] itself and
    passes every other request to the default mux. *)
Definition serve `{Codecs} (env : Env) (r : Request) (σ : World) : ResponseWriter * World :=
  if decide (Path r = "*" ∧ Method r = http_MethodOptions)
  then globalOptionsHandler env new_ResponseWriter r σ
  else ServeHTTP (DefaultServeMux (main boot_ok)) env new_ResponseWriter r σ.

(** A sequence of requests, each with its environment, served in order. *)
Fixpoint run `{Codecs} (xs : list (Env * Request)) (σ : World) : list ResponseWriter * World :=
  match xs with
  | [] => ([], σ)
  | (env, r) :: xs' =>
      let '(w, σ1) := serve env r σ in
      let '(ws, σ2) := run xs' σ1 in
      (w :: ws, σ2)
  end.

(** The [{id, user}] object of the get and list responses. *)
Definition id_user_json (id : string) (u : User) : json :=
  JObject [("id", JString id); ("user", User_json u)].

(** The object of the add response. *)
Definition added_json (id : string) (u : User) : json :=
  JObject [("id", JString id);
           ("message", JString "User added successfully");
           ("user", User_json u)].

(** A request is a successful add of [u] under [id] when it is answered
    with status 200 by the add response for [id] and [u]. *)
Definition answers_added (w : ResponseWriter) (id : string) (u : User) : Prop :=
  status w = http_StatusOK ∧ written w = [Json (added_json id u)].

(** The prefix of an iterator's results before its first error. *)
Fixpoint yielded `{Codecs} (iter : DocumentIterator) : list DocumentSnapshot :=
  match iter with
  | inl doc :: rest => doc :: yielded rest
  | _ => []
  end.

(** ** A concrete codec, for examples

    Documents are field lists whose values are strings or integers.  The
    fields are gone through from the front when the order is even and
    from the back when it is odd. *)

Definition ada : User := {| Name := "Ada"; Email := "ada@example.org" |}.

Definition ada_body : string :=
  "{" +:+ dq +:+ "name" +:+ dq +:+ ":" +:+ dq +:+ "Ada" +:+ dq +:+ "," +:+
  dq +:+ "email" +:+ dq +:+ ":" +:+ dq +:+ "ada@example.org" +:+ dq +:+ "}".

Definition demo_fields (u : User) : list (string * (string + Z)) :=
  [("Name", inl (Name u)); ("Email", inl (Email u))].

Fixpoint demo_plan_in_order (d : list (string * (string + Z))) : list assign * option error :=
  match d with
  | [] => ([], None)
  | (k, v) :: d' =>
      if decide (k = "Name") then
        match v with
        | inl s => let '(p, e) := demo_plan_in_order d' in (set_Name s :: p, e)
        | inr _ => ([], Some (other_error "cannot set type string"))
        end
      else if decide (k = "Email") then
        match v with
        | inl s => let '(p, e) := demo_plan_in_order d' in (set_Email s :: p, e)
        | inr _ => ([], Some (other_error "cannot set type string"))
        end
      else demo_plan_in_order d'
  end.

Definition demo_plan (d : list (string * (string + Z))) (order : nat)
  : list assign * option error :=
  demo_plan_in_order (if Nat.even order then d else reverse d).

Definition demo : Codecs :=
  {| DocData := list (string * (string + Z));
     fields_of_User := demo_fields;
     DataTo_plan := demo_plan |}.

Definition empty_world : @World demo := {| firestore := ∅; calls := [] |}.

(** An environment without failures that draws the identifier ["x" ++ tail]. *)
Definition env_ok (tail : string) : Env :=
  {| rpc_error := None; id_head := "x"; id_tail := tail; scan_error := None;
     range_seed := λ _, 0 |}.

Definition env_down : Env :=
  {| rpc_error := Some codes_Unavailable; id_head := "x"; id_tail := "1";
     scan_error := Some (0, codes_Unavailable); range_seed := λ _, 0 |}.

Definition request (method path : string) (query : list (string * string)) (body : string)
  : Request :=
  {| Method := method; Path := path; Query := query; Body := body;
     ProtoMajor := 1; ProtoMinor := 1 |}.

Definition post_ada : Request := request "POST" "/addUser" [] ada_body.

Definition get_user (id : string) : Request := request "GET" "/getUser" [("id", id)] "".

Definition get_list : Request := request "GET" "/listUsers" [] "".

(** What the client of an add request reads off its response: the
    identifier and the record of the success object. *)
Definition added_by (r : Request) (w : ResponseWriter) : option (string * User) :=
  if decide (Path r = "/addUser") then
    match written w with
    | [Json (JObject [("id", JString id); ("message", JString _);
                      ("user", JObject [("name", JString n); ("email", JString e)])])] =>
        Some (id, {| Name := n; Email := e |})
    | _ => None
    end
  else None.

(** The successful adds of a run, as their clients saw them. *)
Fixpoint adds_of (xs : list (Env * Request)) (ws : list ResponseWriter) : list (string * User) :=
  match xs, ws with
  | (_, r) :: xs', w :: ws' =>
      match added_by r w with
      | Some a => a :: adds_of xs' ws'
      | None => adds_of xs' ws'
      end
  | _, _ => []
  end.

(** Decoding what was encoded gives the record back, without an error,
    in whatever order the fields are gone through. *)
Definition roundtrips `{Codecs} (u : User) : Prop :=
  ∀ order, ∃ plan,
    DataTo_plan (fields_of_User u) order = (plan, None) ∧
    foldl do_assign zero_User plan = u.

Definition post_garbage : Request := request "POST" "/addUser" [] "not json".

(** A well-formed record with other bytes behind it. *)
Definition post_ada_and_more : Request :=
  request "POST" "/addUser" [] (ada_body +:+ "]] not json").

Definition get_user_no_id : Request := request "GET" "/getUser" [("name", "Ada")] "".

Definition put_list : Request := request "PUT" "/listUsers" [] "".

Definition delete_foo : Request := request "DELETE" "/foo" [] "".

(** Paths that are not in canonical form. *)
Definition get_slash_slash_foo : Request := request "GET" "//foo" [] "".

Definition post_dot_dot_addUser : Request := request "POST" "/foo/../addUser" [] ada_body.

Definition env_scan_breaks (n : nat) : Env :=
  {| rpc_error := None; id_head := "x"; id_tail := ""; scan_error := Some (n, codes_Unavailable);
     range_seed := λ _, 0 |}.

(** Two adds, then a list request that fails in transit. *)
Definition two_adds : list (Env * Request) :=
  [(env_ok "1", post_ada); (env_ok "2", post_ada); (env_down, get_list)].

(** A collection holding one document whose "Name" is an integer. *)
Definition odd_world : @World demo :=
  {| firestore := {[ "users" := {[ "b1" := [("Email", inl "b@example.org"); ("Name", inr 7%Z)] ]} ]};
     calls := [] |}.

(** ** Vocabulary for the properties of whole responses and runs *)

(** The record that [doc.DataTo(&user)] leaves in a zero [User] for a
    document with these fields, gone through in this order. *)
Definition decoded `{Codecs} (d : DocData) (order : nat) : User :=
  foldl do_assign zero_User (DataTo_plan d order).1.


Definition call_collection (c : call) : string :=
  match c with
  | call_Add coll _ => coll
  | call_Get coll _ => coll
  | call_Documents coll => coll
  end.


Definition page_response (w : ResponseWriter) : Prop :=
  status w = 200%Z ∧ header w = ∅ ∧ written w = [Text tmpl].


(** The mux's redirect to the canonical form of the path. *)
Definition redirect_response (w : ResponseWriter) : Prop :=
  status w = 301%Z ∧
  is_Some (header w !! "Location") ∧
  (written w = [] ∨ ∃ url, written w = [Moved url]).

(** An answer without a body: to the request target [*]. *)
Definition bare_response (w : ResponseWriter) : Prop :=
  written w = [] ∧ (status w = 200%Z ∨ status w = 400%Z).

(** A request body is one JSON value, blanks apart, when its first value
    scans and only blanks follow. *)
Definition whole_json (body : string) : bool :=
  match readValue body with
  | Got _ rest => bool_decide (skip_space rest = "")
  | _ => false
  end.

Definition boot_port_taken : Boot :=
  {| NewClient_err := None;
     ListenAndServe_err := Some (other_error "address already in use") |}.

Definition post_put_get : list (Env * Request) :=
  [(env_ok "3", post_ada); (env_ok "", put_list); (env_ok "", get_user "x1")].

(** * Properties *)

(** ** The response writer *)

Lemma written_WriteHeader (w : ResponseWriter) (code : Z) :
  written (WriteHeader w code) = written w.
Proof. unfold WriteHeader. destruct (wroteHeader w); reflexivity. Qed.

Lemma wroteHeader_WriteHeader (w : ResponseWriter) (code : Z) :
  wroteHeader (WriteHeader w code) = Some (default code (wroteHeader w)).
Proof. unfold WriteHeader. destruct (wroteHeader w) eqn:Hw; simpl; by rewrite ?Hw. Qed.

Lemma written_Write (w : ResponseWriter) (c : chunk) :
  written (Writer_Write w c) = written w ++ [c].
Proof. unfold Writer_Write. simpl. by rewrite written_WriteHeader. Qed.

Lemma status_Write (w : ResponseWriter) (c : chunk) :
  status (Writer_Write w c) = status w.
Proof.
  unfold Writer_Write, status. simpl. rewrite wroteHeader_WriteHeader.
  destruct (wroteHeader w); reflexivity.
Qed.

Lemma status_http_Error (w : ResponseWriter) (msg : string) (code : Z) :
  wroteHeader w = None → status (http_Error w msg code) = code.
Proof.
  intros Hw. unfold http_Error. rewrite status_Write.
  unfold status. rewrite wroteHeader_WriteHeader. simpl. by rewrite Hw.
Qed.

Lemma written_http_Error (w : ResponseWriter) (msg : string) (code : Z) :
  written (http_Error w msg code) = written w ++ [Text (msg +:+ newline)].
Proof. unfold http_Error. rewrite written_Write, written_WriteHeader. reflexivity. Qed.

Lemma status_Encode (w : ResponseWriter) (v : govalue) :
  wroteHeader w = None → status (Encode w v) = http_StatusOK.
Proof. intros Hw. unfold Encode. rewrite status_Write. unfold status. by rewrite Hw. Qed.

Lemma written_Encode (w : ResponseWriter) (v : govalue) :
  written (Encode w v) = written w ++ [Json (Marshal v)].
Proof. unfold Encode. apply written_Write. Qed.

(** ** The body decoder never runs out of budget *)

Lemma skip_space_length (s : string) : String.length (skip_space s) ≤ String.length s.
Proof. induction s as [|c s IH]; simpl; [lia|]. destruct (is_space c); simpl; lia. Qed.

Lemma skip_digits_length (s : string) : String.length (skip_digits s) ≤ String.length s.
Proof. induction s as [|c s IH]; simpl; [lia|]. destruct (is_digit c); simpl; lia. Qed.

Lemma drop_string_length (n : nat) (s : string) :
  String.length (drop_string n s) ≤ String.length s.
Proof.
  revert s. induction n as [|n IH]; intros [|c s]; simpl; try lia.
  specialize (IH s). lia.
Qed.

Lemma keep_length pre r raw rest :
  keep pre r = Some (raw, rest) → ∃ raw', r = Some (raw', rest).
Proof. destruct r as [[raw' rest']|]; simpl; [|done]. intros [= _ <-]. eauto. Qed.

Lemma scan_string_length (s raw rest : string) :
  scan_string s = Some (raw, rest) → String.length rest < String.length s.
Proof.
  remember (String.length s) as n eqn:Hn. revert s Hn raw rest.
  induction n as [n IHn] using lt_wf_ind. intros s -> raw rest.
  assert (IH : ∀ t raw' rest', String.length t < String.length s →
            scan_string t = Some (raw', rest') → String.length rest' < String.length t).
  { intros t raw' rest' Ht. by eapply IHn. }
  clear IHn. destruct s as [|c s1]; simpl; [done|].
  case_decide; [intros [= _ <-]; lia|].
  case_decide.
  - destruct s1 as [|e s2]; [done|]. destruct (is_simple_escape e).
    + intros (raw' & Hr)%keep_length. apply IH in Hr; simpl in *; lia.
    + case_decide; [|done].
      destruct s2 as [|h1 [|h2 [|h3 [|h4 s6]]]]; try done.
      destruct (is_hex h1 && is_hex h2 && is_hex h3 && is_hex h4); [|done].
      intros (raw' & Hr)%keep_length. apply IH in Hr; simpl in *; lia.
  - destruct (byte c <? 32)%N; [done|].
    intros (raw' & Hr)%keep_length. apply IH in Hr; simpl in *; lia.
Qed.

Lemma digits1_length (s rest : string) :
  digits1 s = Some rest → String.length rest ≤ String.length s.
Proof.
  destruct s as [|d s]; simpl; [done|]. destruct (is_digit d); [|done].
  intros [= <-]. pose proof (skip_digits_length s). lia.
Qed.

Lemma scan_number_length (s rest : string) :
  scan_number s = Some rest → String.length rest ≤ String.length s.
Proof.
  unfold scan_number.
  set (s0 := match s with
             | String c s' => if decide (c = "-"%char) then s' else s
             | EmptyString => s
             end).
  assert (Hs0 : String.length s0 ≤ String.length s).
  { subst s0. destruct s as [|c s']; [done|]. case_decide; simpl; lia. }
  set (after_int := match s0 with
                    | String c s1 =>
                        if decide (c = "0"%char) then Some s1
                        else if is_digit c then Some (skip_digits s1) else None
                    | EmptyString => None
                    end).
  assert (Hint : ∀ t, after_int = Some t → String.length t ≤ String.length s).
  { subst after_int. intros t. destruct s0 as [|c s1]; [done|]. simpl in Hs0.
    case_decide; [intros [= <-]; lia|].
    destruct (is_digit c); [|done]. intros [= <-].
    pose proof (skip_digits_length s1). lia. }
  set (after_frac := match after_int with
                     | Some (String c s3) =>
                         if decide (c = "."%char) then digits1 s3 else after_int
                     | _ => after_int
                     end).
  assert (Hfrac : ∀ t, after_frac = Some t → String.length t ≤ String.length s).
  { subst after_frac. intros t. destruct after_int as [[|c s3]|] eqn:Hai; [by auto| |done].
    case_decide; [|by auto].
    intros Hd%digits1_length. specialize (Hint _ eq_refl). simpl in Hint. lia. }
  destruct after_frac as [[|c s6]|] eqn:Haf; [by auto| |done].
  specialize (Hfrac _ eq_refl). simpl in Hfrac.
  destruct (bool_decide (c = "e"%char) || bool_decide (c = "E"%char)); [|intros [= <-]; simpl; lia].
  destruct s6 as [|g s7]; [done|].
  destruct (bool_decide (g = "+"%char) || bool_decide (g = "-"%char));
    intros Hd%digits1_length; simpl in *; lia.
Qed.

(** With a budget above the length of the text, each of the three
    scanners comes to an end by itself, and what it leaves is no longer
    than the text. *)
Lemma scanners_finish (fuel : nat) :
  (∀ depth s, String.length s < fuel →
     parse_value fuel depth s ≠ Starved ∧
     ∀ v rest, parse_value fuel depth s = Got v rest →
               String.length rest ≤ String.length s) ∧
  (∀ depth s, String.length s < fuel →
     parse_members fuel depth s ≠ Starved ∧
     ∀ ms rest, parse_members fuel depth s = Got ms rest →
                String.length rest ≤ String.length s) ∧
  (∀ depth s, String.length s < fuel →
     parse_elements fuel depth s ≠ Starved ∧
     ∀ u rest, parse_elements fuel depth s = Got u rest →
               String.length rest ≤ String.length s).
Proof.
  induction fuel as [|fuel (IHv & IHm & IHe)].
  { repeat split; intros; lia. }
  split; [|split]; intros depth s Hlen.
  - destruct s as [|c s1]; [by split|]. simpl in Hlen. cbn [parse_value].
    pose proof (skip_space_length s1) as Hsp.
    case_decide.
    { destruct (maxNestingDepth <? N.succ depth)%N; [by split|].
      destruct (skip_space s1) as [|c2 s2] eqn:Hs; [by split|].
      simpl in Hsp. case_decide; [split; [done|]; intros ? ? [= _ <-]; simpl; lia|].
      destruct (IHm (N.succ depth) (String c2 s2)) as [Hne Hle]; [simpl; lia|].
      destruct (parse_members fuel (N.succ depth) (String c2 s2)) as [ms rest| |];
        [|by split|done].
      split; [done|]. intros ? ? [= _ <-]. specialize (Hle _ _ eq_refl). simpl in *. lia. }
    case_decide.
    { destruct (maxNestingDepth <? N.succ depth)%N; [by split|].
      destruct (skip_space s1) as [|c2 s2] eqn:Hs; [by split|].
      simpl in Hsp. case_decide; [split; [done|]; intros ? ? [= _ <-]; simpl; lia|].
      destruct (IHv (N.succ depth) (String c2 s2)) as [Hne Hle]; [simpl; lia|].
      destruct (parse_value fuel (N.succ depth) (String c2 s2)) as [v0 s3| |];
        [|by split|done].
      specialize (Hle _ _ eq_refl).
      destruct (IHe (N.succ depth) s3) as [Hne' Hle']; [simpl in *; lia|].
      destruct (parse_elements fuel (N.succ depth) s3) as [u rest| |]; [|by split|done].
      split; [done|]. intros ? ? [= _ <-]. specialize (Hle' _ _ eq_refl). simpl in *. lia. }
    case_decide.
    { destruct (scan_string s1) as [[raw rest]|] eqn:Hss; [|by split].
      apply scan_string_length in Hss.
      split; [done|]. intros ? ? [= _ <-]. simpl. lia. }
    destruct (bool_decide (c = "-"%char) || is_digit c).
    { destruct (scan_number (String c s1)) as [rest|] eqn:Hsn; [|by split].
      apply scan_number_length in Hsn. split; [done|]. by intros ? ? [= _ <-]. }
    destruct (String.prefix "true" (String c s1));
      [split; [done|]; intros ? ? [= _ <-]; exact (drop_string_length 4 (String c s1))|].
    destruct (String.prefix "false" (String c s1));
      [split; [done|]; intros ? ? [= _ <-]; exact (drop_string_length 5 (String c s1))|].
    destruct (String.prefix "null" (String c s1));
      [split; [done|]; intros ? ? [= _ <-]; exact (drop_string_length 4 (String c s1))|].
    by split.
  - destruct s as [|c s1]; [by split|]. simpl in Hlen. cbn [parse_members].
    case_decide; [|by split].
    destruct (scan_string s1) as [[key s2]|] eqn:Hss; [|by split].
    apply scan_string_length in Hss.
    pose proof (skip_space_length s2) as Hsp2.
    destruct (skip_space s2) as [|c3 s3]; [by split|]. simpl in Hsp2.
    case_decide; [|by split].
    pose proof (skip_space_length s3) as Hsp3.
    destruct (IHv depth (skip_space s3)) as [Hne Hle]; [lia|].
    destruct (parse_value fuel depth (skip_space s3)) as [v s4| |]; [|by split|done].
    specialize (Hle _ _ eq_refl).
    pose proof (skip_space_length s4) as Hsp4.
    destruct (skip_space s4) as [|c5 s5]; [by split|]. simpl in Hsp4.
    case_decide.
    { pose proof (skip_space_length s5) as Hsp5.
      destruct (IHm depth (skip_space s5)) as [Hne' Hle']; [lia|].
      destruct (parse_members fuel depth (skip_space s5)) as [ms rest| |];
        [|by split|done].
      split; [done|]. intros ? ? [= _ <-]. specialize (Hle' _ _ eq_refl). simpl. lia. }
    case_decide; [|by split].
    split; [done|]. intros ? ? [= _ <-]. simpl. lia.
  - cbn [parse_elements].
    pose proof (skip_space_length s) as Hsp.
    destruct (skip_space s) as [|c2 s2]; [by split|]. simpl in Hsp.
    case_decide.
    { pose proof (skip_space_length s2) as Hsp2.
      destruct (IHv depth (skip_space s2)) as [Hne Hle]; [lia|].
      destruct (parse_value fuel depth (skip_space s2)) as [v s3| |]; [|by split|done].
      specialize (Hle _ _ eq_refl).
      destruct (IHe depth s3) as [Hne' Hle']; [lia|].
      split; [done|]. intros u rest Hr. specialize (Hle' _ _ Hr). lia. }
    case_decide; [|by split].
    split; [done|]. intros ? ? [= _ <-]. lia.
Qed.

Lemma readValue_finishes (body : string) : readValue body ≠ Starved.
Proof.
  unfold readValue.
  destruct (scanners_finish (S (String.length body))) as (Hv & _ & _).
  apply Hv. pose proof (skip_space_length body). lia.
Qed.

(** [Decode] reports an error exactly when the first value of the body
    does not scan or does not fit the struct. *)
Lemma Decode_error (body : string) (user : User) :
  (Decode body user).2 = None ↔
  ∃ v rest, readValue body = Got v rest ∧ (unmarshal v user).2 = None.
Proof.
  unfold Decode. destruct (readValue body) as [v rest| |]; simpl.
  - split; [eauto|]. by intros (? & ? & [= <- <-] & ?).
  - split; [done|]. by intros (? & ? & ? & _).
  - split; [done|]. by intros (? & ? & ? & _).
Qed.

(** ** Routing *)

Section Routing.
Context `{Codecs}.

Lemma routes_of_main (boot : Boot) :
  NewClient_err boot = None →
  DefaultServeMux (main boot) = DefaultServeMux (main boot_ok).
Proof.
  intros Hnc. unfold main, initFirestore. rewrite Hnc. simpl.
  unfold and_then; simpl. unfold ListenAndServe_or_Fatal.
  destruct (ListenAndServe_err boot); reflexivity.
Qed.

Lemma serve_addUser env r σ :
  Path r = "/addUser" → serve env r σ = addUserHandler env new_ResponseWriter r σ.
Proof.
  intros Hp. unfold serve, ServeHTTP, mux_Handler. rewrite Hp.
  destruct (decide (Method r = http_MethodConnect)); reflexivity.
Qed.

Lemma serve_getUser env r σ :
  Path r = "/getUser" → serve env r σ = getUserHandler env new_ResponseWriter r σ.
Proof.
  intros Hp. unfold serve, ServeHTTP, mux_Handler. rewrite Hp.
  destruct (decide (Method r = http_MethodConnect)); reflexivity.
Qed.

Lemma serve_listUsers env r σ :
  Path r = "/listUsers" → serve env r σ = listUsersHandler env new_ResponseWriter r σ.
Proof.
  intros Hp. unfold serve, ServeHTTP, mux_Handler. rewrite Hp.
  destruct (decide (Method r = http_MethodConnect)); reflexivity.
Qed.

Lemma routes_are :
  DefaultServeMux (main boot_ok) =
    [("/", homeHandler); ("/addUser", addUserHandler);
     ("/getUser", getUserHandler); ("/listUsers", listUsersHandler)].
Proof. reflexivity. Qed.

(** A path that is none of the three API paths is matched by the pattern
    [/] when it begins with a slash and by no pattern when it does not. *)
Lemma mux_handler_other (p : string) :
  p ≠ "/addUser" → p ≠ "/getUser" → p ≠ "/listUsers" →
  mux_handler (DefaultServeMux (main boot_ok)) p =
    if String.prefix "/" p then homeHandler else NotFoundHandler.
Proof.
  intros Ha Hg Hl. rewrite routes_are. unfold mux_handler, mux_match.
  simpl exact_entry.
  destruct (decide ("/" = p)) as [<-|Hne]; [reflexivity|].
  repeat (case_decide; [congruence|]).
  simpl subtree_entry. by destruct (String.prefix "/" p).
Qed.

Lemma status_http_Redirect r url :
  status (http_Redirect new_ResponseWriter r url 301%Z) = 301%Z ∧
  header (http_Redirect new_ResponseWriter r url 301%Z) !! "Location" = Some url ∧
  (written (http_Redirect new_ResponseWriter r url 301%Z) = [] ∨
   written (http_Redirect new_ResponseWriter r url 301%Z) = [Moved url]).
Proof.
  unfold http_Redirect.
  destruct (bool_decide (Method r = http_MethodGet));
    destruct (bool_decide (Method r = http_MethodHead)); simpl; auto.
Qed.

Lemma redirect_response_http_Redirect r url :
  redirect_response (http_Redirect new_ResponseWriter r url 301%Z).
Proof.
  destruct (status_http_Redirect r url) as (Hs & Hl & Hw).
  split; [done|]. split; [by rewrite Hl|]. destruct Hw; eauto.
Qed.

Lemma page_response_home : page_response (template_Execute new_ResponseWriter tmpl).
Proof. unfold page_response, template_Execute. by rewrite status_Write, written_Write. Qed.

(** A request for none of the three API paths is answered without the
    store: by the landing page, by the mux's not-found answer, by a
    redirect to the canonical path, or without a body. *)
Lemma serve_unrouted env r :
  Path r ≠ "/addUser" → Path r ≠ "/getUser" → Path r ≠ "/listUsers" →
  ∃ w, (page_response w ∨ w = http_NotFound new_ResponseWriter ∨
        redirect_response w ∨ bare_response w) ∧
       ∀ σ, serve env r σ = (w, σ).
Proof.
  intros Ha Hg Hl. unfold serve.
  destruct (decide (Path r = "*" ∧ Method r = http_MethodOptions)).
  { eexists. split; [|reflexivity]. right; right; right. split; [done|]. by left. }
  unfold ServeHTTP. destruct (decide (Path r = "*")).
  { eexists. split; [|reflexivity]. right; right; right.
    split; [by destruct (ProtoAtLeast r 1 1)|]. right. by destruct (ProtoAtLeast r 1 1). }
  unfold mux_Handler.
  assert (Hh : ∃ w, (page_response w ∨ w = http_NotFound new_ResponseWriter) ∧
             ∀ σ, mux_handler (DefaultServeMux (main boot_ok)) (Path r)
                    env new_ResponseWriter r σ = (w, σ)).
  { rewrite (mux_handler_other _ Ha Hg Hl). destruct (String.prefix "/" (Path r)).
    - eexists. split; [|reflexivity]. left. apply page_response_home.
    - eexists. split; [|reflexivity]. by right. }
  destruct Hh as (wh & Hwh & Hserve).
  assert (Hr : ∀ url, ∃ w, (page_response w ∨ w = http_NotFound new_ResponseWriter ∨
                            redirect_response w ∨ bare_response w) ∧
             ∀ σ, RedirectHandler url 301%Z env new_ResponseWriter r σ = (w, σ)).
  { intros url. eexists. split; [|reflexivity]. right; right; left.
    apply redirect_response_http_Redirect. }
  destruct (decide (Method r = http_MethodConnect)).
  - destruct (shouldRedirect _ (Path r)); [apply Hr|].
    exists wh. split; [tauto | done].
  - cbv zeta. destruct (shouldRedirect _ (cleanPath (Path r))); [apply Hr|].
    destruct (decide (cleanPath (Path r) ≠ Path r)); [apply Hr|].
    exists wh. split; [tauto | done].
Qed.

Lemma ends_in_slash_app (p : string) : ends_in_slash (p +:+ "/") = true.
Proof.
  induction p as [|c p IH]; [reflexivity|]. simpl.
  destruct (p +:+ "/") eqn:Hp; [by destruct p|]. done.
Qed.

Lemma shouldRedirect_routes (p : string) :
  shouldRedirect (DefaultServeMux (main boot_ok)) p = false.
Proof.
  rewrite routes_are. unfold shouldRedirect.
  destruct (bool_decide _); [done|]. case_decide; [done|].
  apply andb_false_iff. left. apply bool_decide_eq_false. intros [h Hh].
  simpl in Hh. pose proof (ends_in_slash_app p) as Hs.
  repeat case_decide; try done;
    match goal with
    | Heq : _ = p +:+ "/" |- _ =>
        first [ by rewrite <- Heq in Hs
              | destruct p as [|c p]; [done|]; destruct p; discriminate ]
    end.
Qed.

Lemma prefix_empty (s : string) : String.prefix "" s = true.
Proof. by destruct s. Qed.

Lemma cleanPath_rooted (p : string) : String.prefix "/" (cleanPath p) = true.
Proof.
  unfold cleanPath. case_decide; [reflexivity|]. cbv zeta.
  destruct (_ && _); simpl; apply prefix_empty.
Qed.

(** A request whose path is in canonical form and is none of the three
    API paths goes to the home handler. *)
Lemma serve_canonical env r σ :
  cleanPath (Path r) = Path r →
  Path r ≠ "/addUser" → Path r ≠ "/getUser" → Path r ≠ "/listUsers" →
  serve env r σ = homeHandler env new_ResponseWriter r σ.
Proof.
  intros Hc Ha Hg Hl.
  assert (Hstar : Path r ≠ "*").
  { intros Hs. rewrite Hs in Hc. discriminate. }
  assert (Hroot : String.prefix "/" (Path r) = true).
  { rewrite <- Hc. apply cleanPath_rooted. }
  unfold serve. rewrite decide_False by tauto.
  unfold ServeHTTP. rewrite decide_False by done.
  unfold mux_Handler. cbv zeta. rewrite Hc, !shouldRedirect_routes.
  rewrite (decide_False (P := Path r ≠ Path r)) by tauto.
  rewrite (mux_handler_other _ Ha Hg Hl), Hroot. by case_decide.
Qed.

End Routing.

(** ** The add handler *)

Section AddUser.
Context `{Codecs}.

Lemma addUserHandler_wrong_method env w r σ :
  Method r ≠ http_MethodPost →
  addUserHandler env w r σ =
    (http_Error w "Invalid request method" http_StatusMethodNotAllowed, σ).
Proof. intros Hm. unfold addUserHandler. by rewrite decide_True. Qed.

Lemma addUserHandler_bad_body env w r σ u e :
  Method r = http_MethodPost →
  Decode (Body r) zero_User = (u, Some e) →
  addUserHandler env w r σ =
    (http_Error w "Invalid request body" http_StatusBadRequest, σ).
Proof.
  intros Hm Hd. unfold addUserHandler.
  rewrite decide_False by (intros Hne; by apply Hne). by rewrite Hd.
Qed.

Lemma addUserHandler_create_fails env w r σ u e σ' :
  Method r = http_MethodPost →
  Decode (Body r) zero_User = (u, None) →
  Collection_Add env "users" u σ = (inr e, σ') →
  addUserHandler env w r σ =
    (http_Error w "Error adding user" http_StatusInternalServerError, σ').
Proof.
  intros Hm Hd Ha. unfold addUserHandler.
  rewrite decide_False by (intros Hne; by apply Hne). by rewrite Hd, Ha.
Qed.

Lemma addUserHandler_created env w r σ u docRef σ' :
  Method r = http_MethodPost →
  Decode (Body r) zero_User = (u, None) →
  Collection_Add env "users" u σ = (inl docRef, σ') →
  addUserHandler env w r σ =
    (Encode (Header_Set w "Content-Type" "application/json")
       (VMap [("message", VString "User added successfully");
              ("id", VString (ID docRef)); ("user", VUser u)]), σ').
Proof.
  intros Hm Hd Ha. unfold addUserHandler.
  rewrite decide_False by (intros Hne; by apply Hne). by rewrite Hd, Ha.
Qed.

Lemma Marshal_added id u :
  Marshal (VMap [("message", VString "User added successfully");
                 ("id", VString id); ("user", VUser u)]) = added_json id u.
Proof. reflexivity. Qed.

(** What a successful [Add] returns and stores. *)
Lemma Collection_Add_inl env coll u σ docRef σ' :
  Collection_Add env coll u σ = (inl docRef, σ') →
  ID docRef = new_id env ∧ rpc_error env = None ∧
  collection σ coll !! new_id env = None ∧
  firestore σ' = <[coll := <[new_id env := fields_of_User u]> (collection σ coll)]> (firestore σ).
Proof.
  unfold Collection_Add. simpl.
  destruct (rpc_error env); [intros [=]|].
  change (collection (record_call (call_Add coll u) σ) coll) with (collection σ coll).
  destruct (collection σ coll !! new_id env) eqn:Hl; intros [= <- <-]; auto.
Qed.

(** A failed [Add] leaves the documents as they were. *)
Lemma Collection_Add_inr env coll u σ e σ' :
  Collection_Add env coll u σ = (inr e, σ') → firestore σ' = firestore σ.
Proof.
  unfold Collection_Add. simpl.
  destruct (rpc_error env); [by intros [= <- <-]|].
  change (collection (record_call (call_Add coll u) σ) coll) with (collection σ coll).
  destruct (collection σ coll !! new_id env); intros [= <- <-]; auto.
Qed.

(** C1 (amended): a POST to /addUser is answered with 400 exactly when
    the decoder reports an error for the body, that is, when the first
    JSON value of the body does not scan or is not a record of strings;
    what follows the first value is not looked at.  It is answered with
    500, and only the error text as body, when the body decodes and the
    store's create fails; and with 200 and the JSON object of exactly the
    fields "id" (the identifier the store generated), "message" (a string)
    and "user" (the decoded record) when the create succeeds. *)
Theorem addUser_responses env r σ :
  Path r = "/addUser" → Method r = http_MethodPost →
  let w := (serve env r σ).1 in
  (status w = 400%Z ↔ ∃ e, (Decode (Body r) zero_User).2 = Some e) ∧
  (status w = 400%Z ↔
     ¬ ∃ v rest, readValue (Body r) = Got v rest ∧ (unmarshal v zero_User).2 = None) ∧
  (∀ u e, Decode (Body r) zero_User = (u, Some e) →
     status w = 400%Z ∧ written w = [Text ("Invalid request body" +:+ newline)] ∧
     (serve env r σ).2 = σ) ∧
  (∀ u e, Decode (Body r) zero_User = (u, None) →
     (Collection_Add env "users" u σ).1 = inr e →
     status w = 500%Z ∧ written w = [Text ("Error adding user" +:+ newline)]) ∧
  (∀ u docRef, Decode (Body r) zero_User = (u, None) →
     (Collection_Add env "users" u σ).1 = inl docRef →
     status w = 200%Z ∧
     header w !! "Content-Type" = Some "application/json" ∧
     written w =
       [Json (JObject [("id", JString (ID docRef));
                       ("message", JString "User added successfully");
                       ("user", JObject [("name", JString (Name u));
                                         ("email", JString (Email u))])])]).
Proof.
  intros Hp Hm w. subst w. rewrite (serve_addUser _ _ _ Hp).
  assert (H400 : status (addUserHandler env new_ResponseWriter r σ).1 = 400%Z ↔
                 ∃ e, (Decode (Body r) zero_User).2 = Some e).
  { destruct (Decode (Body r) zero_User) as [u [e|]] eqn:Hd.
    - rewrite (addUserHandler_bad_body _ _ _ _ _ _ Hm Hd). cbn [fst snd].
      rewrite status_http_Error by done. split; [eauto | done].
    - destruct (Collection_Add env "users" u σ) as [[docRef|e] σ'] eqn:Hadd.
      + rewrite (addUserHandler_created _ _ _ _ _ _ _ Hm Hd Hadd). cbn [fst snd].
        rewrite status_Encode by done. split; [done | by intros [? ?]].
      + rewrite (addUserHandler_create_fails _ _ _ _ _ _ _ Hm Hd Hadd). cbn [fst snd].
        rewrite status_http_Error by done. split; [done | by intros [? ?]]. }
  split; [exact H400|]. split; [|split; [|split]].
  - rewrite H400, <- Decode_error.
    destruct (Decode (Body r) zero_User).2; split; try done; eauto.
    by intros [? ?].
  - intros u e Hd. rewrite (addUserHandler_bad_body _ _ _ _ _ _ Hm Hd). cbn [fst snd].
    split; [by apply status_http_Error|]. split; [by rewrite written_http_Error | done].
  - intros u e Hd Ha.
    destruct (Collection_Add env "users" u σ) as [res σ'] eqn:Hadd.
    simpl in Ha; subst res.
    rewrite (addUserHandler_create_fails _ _ _ _ _ _ _ Hm Hd Hadd). cbn [fst snd].
    split; [by apply status_http_Error | by rewrite written_http_Error].
  - intros u docRef Hd Ha.
    destruct (Collection_Add env "users" u σ) as [res σ'] eqn:Hadd.
    simpl in Ha; subst res.
    rewrite (addUserHandler_created _ _ _ _ _ _ _ Hm Hd Hadd). cbn [fst snd].
    split; [by apply status_Encode|]. split; [reflexivity|].
    by rewrite written_Encode.
Qed.



End AddUser.

(** ** The get handler *)

Section GetUser.
Context `{Codecs}.

Lemma Values_Get_absent (q : list (string * string)) (key : string) :
  key ∉ q.*1 → Values_Get q key = "".
Proof.
  induction q as [|[k v] q IH]; [done|]. simpl. intros Hk.
  apply not_elem_of_cons in Hk as [Hne Hk].
  rewrite decide_False by done. by apply IH.
Qed.

Lemma getUserHandler_wrong_method env w r σ :
  Method r ≠ http_MethodGet →
  getUserHandler env w r σ =
    (http_Error w "Invalid request method" http_StatusMethodNotAllowed, σ).
Proof. intros Hm. unfold getUserHandler. by rewrite decide_True. Qed.

Lemma getUserHandler_no_id env w r σ :
  Method r = http_MethodGet → Values_Get (Query r) "id" = "" →
  getUserHandler env w r σ = (http_Error w "User ID required" http_StatusBadRequest, σ).
Proof.
  intros Hm Hid. unfold getUserHandler.
  rewrite decide_False by (intros Hne; by apply Hne). by rewrite decide_True.
Qed.

Lemma getUserHandler_lookup env w r σ :
  Method r = http_MethodGet → Values_Get (Query r) "id" ≠ "" →
  getUserHandler env w r σ =
    let userID := Values_Get (Query r) "id" in
    let '(res, σ') := Doc_Get env "users" userID σ in
    match res with
    | inr _ => (http_Error w "User not found" http_StatusNotFound, σ')
    | inl doc =>
        (Encode (Header_Set w "Content-Type" "application/json")
           (VMap [("id", VString userID); ("user", VUser (DataTo doc zero_User).1)]), σ')
    end.
Proof.
  intros Hm Hid. unfold getUserHandler.
  rewrite decide_False by (intros Hne; by apply Hne). rewrite decide_False by done.
  cbv zeta. destruct (Doc_Get env "users" (Values_Get (Query r) "id") σ) as [[doc|e] σ'];
    [|reflexivity].
  by destruct (DataTo doc zero_User).
Qed.

(** The two ways a lookup fails, and the one way it succeeds. *)
Lemma Doc_Get_result env coll id σ :
  (Doc_Get env coll id σ).1 =
    match rpc_error env with
    | Some e => inr e
    | None =>
        match collection σ coll !! id with
        | Some d => inl {| Ref := {| ID := id |}; data := d; seed := range_seed env 0 |}
        | None => inr codes_NotFound
        end
    end.
Proof.
  unfold Doc_Get. simpl. destruct (rpc_error env); [done|].
  change (collection (record_call (call_Get coll id) σ) coll) with (collection σ coll).
  by destruct (collection σ coll !! id).
Qed.

Lemma Doc_Get_firestore env coll id σ :
  firestore (Doc_Get env coll id σ).2 = firestore σ.
Proof.
  unfold Doc_Get. simpl. destruct (rpc_error env); [done|].
  by destruct (collection _ coll !! id).
Qed.

Lemma Marshal_id_user id u :
  Marshal (VMap [("id", VString id); ("user", VUser u)]) = id_user_json id u.
Proof. reflexivity. Qed.

(** C3: a GET to /getUser with no id parameter, or with an empty one, is
    answered with 400.  With a non-empty id, every failure of the store
    lookup is answered with the same 404 response, whether the document
    is missing or the fetch failed on the way. *)
Theorem getUser_errors env r σ :
  Path r = "/getUser" → Method r = http_MethodGet →
  let w := (serve env r σ).1 in
  let id := Values_Get (Query r) "id" in
  ("id" ∉ (Query r).*1 → status w = 400%Z) ∧
  (id = "" → status w = 400%Z) ∧
  (id ≠ "" → ∀ e, (Doc_Get env "users" id σ).1 = inr e →
     status w = 404%Z ∧ w = http_Error new_ResponseWriter "User not found" 404%Z) ∧
  (id ≠ "" → rpc_error env = None → collection σ "users" !! id = None →
     status w = 404%Z) ∧
  (id ≠ "" → ∀ e, rpc_error env = Some e → status w = 404%Z).
Proof.
  intros Hp Hm w id. subst w id. rewrite (serve_getUser _ _ _ Hp).
  assert (Hfail : Values_Get (Query r) "id" ≠ "" →
            ∀ e, (Doc_Get env "users" (Values_Get (Query r) "id") σ).1 = inr e →
            status (getUserHandler env new_ResponseWriter r σ).1 = 404%Z ∧
            (getUserHandler env new_ResponseWriter r σ).1 =
              http_Error new_ResponseWriter "User not found" 404%Z).
  { intros Hid e He. rewrite (getUserHandler_lookup _ _ _ _ Hm Hid). cbv zeta.
    destruct (Doc_Get env "users" (Values_Get (Query r) "id") σ) as [res σ'].
    cbn [fst] in He. subst res. cbn [fst]. split; [|reflexivity].
    by apply status_http_Error. }
  assert (Hnone : Values_Get (Query r) "id" = "" →
            status (getUserHandler env new_ResponseWriter r σ).1 = 400%Z).
  { intros Hid. rewrite (getUserHandler_no_id _ _ _ _ Hm Hid). cbn [fst].
    by apply status_http_Error. }
  split; [|split; [|split; [|split]]].
  - intros Habs. apply Hnone. by apply Values_Get_absent.
  - exact Hnone.
  - exact Hfail.
  - intros Hid Hrpc Hl. apply (Hfail Hid codes_NotFound).
    by rewrite Doc_Get_result, Hrpc, Hl.
  - intros Hid e Hrpc. apply (Hfail Hid e). by rewrite Doc_Get_result, Hrpc.
Qed.

Lemma foldl_do_assign_Name plan u :
  forallb (λ a, negb (assigns_Name a)) plan = true →
  Name (foldl do_assign u plan) = Name u.
Proof.
  revert u. induction plan as [|a plan IH]; intros u; simpl; [done|].
  intros [Ha Hplan]%andb_prop. rewrite IH by done. by destruct a.
Qed.

Lemma foldl_do_assign_Email plan u :
  forallb (λ a, negb (assigns_Email a)) plan = true →
  Email (foldl do_assign u plan) = Email u.
Proof.
  revert u. induction plan as [|a plan IH]; intros u; simpl; [done|].
  intros [Ha Hplan]%andb_prop. rewrite IH by done. by destruct a.
Qed.

(** C10: when the lookup of GET /getUser finds a document and decoding
    it into a [User] reports an error, the error is dropped: the response
    is still 200, its "user" holds what the decoder assigned before the
    error, and a field the decoder did not assign is the empty string.
    The decoding is the one of this request, in the order it went through
    the fields. *)
Theorem getUser_ignores_decode_error env r σ d plan e :
  Path r = "/getUser" → Method r = http_MethodGet →
  Values_Get (Query r) "id" ≠ "" →
  rpc_error env = None →
  collection σ "users" !! Values_Get (Query r) "id" = Some d →
  DataTo_plan d (range_seed env 0) = (plan, Some e) →
  let w := (serve env r σ).1 in
  let user := foldl do_assign zero_User plan in
  status w = 200%Z ∧
  written w = [Json (id_user_json (Values_Get (Query r) "id") user)] ∧
  (forallb (λ a, negb (assigns_Name a)) plan = true → Name user = "") ∧
  (forallb (λ a, negb (assigns_Email a)) plan = true → Email user = "").
Proof.
  intros Hp Hm Hid Hrpc Hl Hplan w user. subst w user.
  rewrite (serve_getUser _ _ _ Hp), (getUserHandler_lookup _ _ _ _ Hm Hid). cbv zeta.
  pose proof (Doc_Get_result env "users" (Values_Get (Query r) "id") σ) as Hres.
  rewrite Hrpc, Hl in Hres.
  destruct (Doc_Get env "users" (Values_Get (Query r) "id") σ) as [res σ'].
  cbn [fst] in Hres. subst res. cbn [fst].
  unfold DataTo. cbn [data seed]. rewrite Hplan. cbn [fst].
  split; [by apply status_Encode|]. split.
  - by rewrite written_Encode, Marshal_id_user.
  - split; intros Hno.
    + by rewrite foldl_do_assign_Name.
    + by rewrite foldl_do_assign_Email.
Qed.

End GetUser.

(** ** The list handler *)

Section ListUsers.
Context `{Codecs}.

Lemma list_loop_yielded (iter : DocumentIterator) (acc : list govalue) :
  list_loop iter (Some acc) = Some (acc ++ (list_entry <$> yielded iter)).
Proof.
  revert acc. induction iter as [|[doc|e] rest IH]; intros acc; simpl.
  - by rewrite app_nil_r.
  - rewrite IH. by rewrite <- app_assoc.
  - by rewrite app_nil_r.
Qed.

Lemma yielded_inl (docs : list DocumentSnapshot) : yielded (inl <$> docs) = docs.
Proof. induction docs as [|d docs IH]; csimpl; [done|]. by rewrite IH. Qed.

Lemma yielded_until_error (docs : list DocumentSnapshot) e (rest : DocumentIterator) :
  yielded ((inl <$> docs) ++ inr e :: rest) = docs.
Proof. induction docs as [|d docs IH]; csimpl; [done|]. by rewrite IH. Qed.

Lemma Collection_Documents_yielded env coll σ :
  yielded (Collection_Documents env coll σ).1 =
    match scan_error env with
    | None => imap (snapshot_of env) (map_to_list (collection σ coll))
    | Some (n, _) => take n (imap (snapshot_of env) (map_to_list (collection σ coll)))
    end.
Proof.
  unfold Collection_Documents.
  change (collection (record_call (call_Documents coll) σ) coll) with (collection σ coll).
  destruct (scan_error env) as [[n e]|]; cbn [fst].
  - apply yielded_until_error.
  - apply yielded_inl.
Qed.

Lemma Collection_Documents_firestore env coll σ :
  firestore (Collection_Documents env coll σ).2 = firestore σ.
Proof. unfold Collection_Documents. by destruct (scan_error env) as [[n e]|]. Qed.

Lemma listUsersHandler_wrong_method env w r σ :
  Method r ≠ http_MethodGet →
  listUsersHandler env w r σ =
    (http_Error w "Invalid request method" http_StatusMethodNotAllowed, σ).
Proof. intros Hm. unfold listUsersHandler. by rewrite decide_True. Qed.

Lemma listUsersHandler_GET env w r σ :
  Method r = http_MethodGet →
  listUsersHandler env w r σ =
    (Encode (Header_Set w "Content-Type" "application/json")
       (VSlice (Some (list_entry <$> yielded (Collection_Documents env "users" σ).1))),
     (Collection_Documents env "users" σ).2).
Proof.
  intros Hm. unfold listUsersHandler.
  rewrite decide_False by (intros Hne; by apply Hne).
  destruct (Collection_Documents env "users" σ) as [iter σ'].
  by rewrite list_loop_yielded.
Qed.

Lemma written_listUsers env r σ :
  Path r = "/listUsers" → Method r = http_MethodGet →
  written (serve env r σ).1 =
    [Json (JArray (Marshal <$> (list_entry <$>
             yielded (Collection_Documents env "users" σ).1)))].
Proof.
  intros Hp Hm. rewrite (serve_listUsers _ _ _ Hp), (listUsersHandler_GET _ _ _ _ Hm).
  cbn [fst]. by rewrite written_Encode.
Qed.

Lemma status_listUsers env r σ :
  Path r = "/listUsers" → Method r = http_MethodGet →
  status (serve env r σ).1 = 200%Z.
Proof.
  intros Hp Hm. rewrite (serve_listUsers _ _ _ Hp), (listUsersHandler_GET _ _ _ _ Hm).
  cbn [fst]. by apply status_Encode.
Qed.

(** C6: the array returned by GET /listUsers holds exactly the documents
    the iterator yielded before its first error, whatever the error: a
    scan that breaks after [n] documents gives the first [n], and the
    loop treats an error in mid-scan as it treats the end of the
    collection.  The status is 200 in every case, and two scans that
    yield the same documents before their first error are answered
    alike, so a truncated listing cannot be told from a complete one. *)
Theorem listUsers_stops_at_first_error env r σ :
  Path r = "/listUsers" → Method r = http_MethodGet →
  let w := (serve env r σ).1 in
  let iter := (Collection_Documents env "users" σ).1 in
  let all := imap (snapshot_of env) (map_to_list (collection σ "users")) in
  status w = 200%Z ∧
  written w = [Json (JArray (Marshal <$> (list_entry <$> yielded iter)))] ∧
  (scan_error env = None → yielded iter = all) ∧
  (∀ n e, scan_error env = Some (n, e) → yielded iter = take n all) ∧
  (∀ docs e rest,
     list_loop ((inl <$> docs) ++ inr e :: rest) (Some []) = list_loop (inl <$> docs) (Some [])) ∧
  (∀ env' σ',
     yielded (Collection_Documents env' "users" σ').1 = yielded iter →
     (serve env' r σ').1 = w).
Proof.
  intros Hp Hm w iter all. subst w iter all.
  split; [|split; [|split; [|split; [|split]]]].
  - by apply status_listUsers.
  - by apply written_listUsers.
  - intros Hs. by rewrite Collection_Documents_yielded, Hs.
  - intros n e Hs. by rewrite Collection_Documents_yielded, Hs.
  - intros docs e rest. by rewrite !list_loop_yielded, yielded_until_error, yielded_inl.
  - intros env' σ' Hy.
    rewrite !(serve_listUsers _ _ _ Hp), !(listUsersHandler_GET _ _ _ _ Hm). cbn [fst].
    by rewrite Hy.
Qed.

End ListUsers.

(** ** Method gating, routing and start-up *)

Section Gating.
Context `{Codecs}.

(** C7: a request to /listUsers or /getUser whose method is not GET, and
    a request to /addUser whose method is not POST, is answered with 405;
    the store is as it was and no store call was made. *)
Theorem method_not_allowed env r σ :
  (Path r = "/listUsers" ∧ Method r ≠ http_MethodGet) ∨
  (Path r = "/getUser" ∧ Method r ≠ http_MethodGet) ∨
  (Path r = "/addUser" ∧ Method r ≠ http_MethodPost) →
  status (serve env r σ).1 = 405%Z ∧
  written (serve env r σ).1 = [Text ("Invalid request method" +:+ newline)] ∧
  (serve env r σ).2 = σ ∧
  calls (serve env r σ).2 = calls σ.
Proof.
  intros [[Hp Hm]|[[Hp Hm]|[Hp Hm]]].
  - rewrite (serve_listUsers _ _ _ Hp), (listUsersHandler_wrong_method _ _ _ _ Hm).
    cbn [fst snd]. by rewrite status_http_Error, written_http_Error.
  - rewrite (serve_getUser _ _ _ Hp), (getUserHandler_wrong_method _ _ _ _ Hm).
    cbn [fst snd]. by rewrite status_http_Error, written_http_Error.
  - rewrite (serve_addUser _ _ _ Hp), (addUserHandler_wrong_method _ _ _ _ Hm).
    cbn [fst snd]. by rewrite status_http_Error, written_http_Error.
Qed.

(** C9 (amended): every request whose path is in canonical form (it
    begins with a slash and has no empty element, no [.] and no [..]) and
    is none of /addUser, /getUser and /listUsers, whatever its method, is
    handed to the home handler and is answered with status 200 and the
    static page; it is never answered with 404, and the store is not
    touched. *)
Theorem unknown_path_gets_home_page env r σ :
  cleanPath (Path r) = Path r →
  Path r ≠ "/addUser" → Path r ≠ "/getUser" → Path r ≠ "/listUsers" →
  serve env r σ = homeHandler env new_ResponseWriter r σ ∧
  status (serve env r σ).1 = 200%Z ∧
  status (serve env r σ).1 ≠ 404%Z ∧
  written (serve env r σ).1 = [Text tmpl] ∧
  (serve env r σ).2 = σ.
Proof.
  intros Hc Ha Hg Hl. rewrite (serve_canonical _ _ _ Hc Ha Hg Hl).
  split; [reflexivity|]. unfold homeHandler, template_Execute. cbn [fst snd].
  rewrite status_Write, written_Write. by repeat split.
Qed.

(** C8: when the store client cannot be initialised, the process exits
    with code 1 having registered no route and without ever listening;
    when it can, the program listens on ":8000" and on no other address,
    and serves there unless listening itself fails. *)
Theorem startup boot :
  (∀ e, NewClient_err boot = Some e →
     exit_code (main boot) = Some 1%Z ∧
     serving (main boot) = None ∧
     DefaultServeMux (main boot) = [] ∧
     client (main boot) = false ∧
     ∀ addr, Listen addr ∉ events (main boot)) ∧
  (NewClient_err boot = None →
     Listen ":8000" ∈ events (main boot) ∧
     (∀ addr, Listen addr ∈ events (main boot) → addr = ":8000") ∧
     (ListenAndServe_err boot = None →
        serving (main boot) = Some ":8000" ∧ exit_code (main boot) = None)).
Proof.
  split.
  - intros e He. unfold main, initFirestore. rewrite He. cbn.
    repeat split; try reflexivity.
    intros addr Hin. apply list_elem_of_singleton in Hin. discriminate.
  - intros Hok. unfold main, initFirestore. rewrite Hok.
    unfold and_then, ListenAndServe_or_Fatal. cbn.
    destruct (ListenAndServe_err boot) as [e|]; cbn.
    + split; [set_solver|]. split; [|done].
      intros addr Hin. set_unfold in Hin. intuition congruence.
    + split; [set_solver|]. split; [|done].
      intros addr Hin. set_unfold in Hin. intuition congruence.
Qed.

End Gating.

(** ** Sequences of requests *)

Section Runs.
Context `{Codecs}.

Lemma collection_unchanged (σ σ' : World) coll :
  firestore σ' = firestore σ → collection σ' coll = collection σ coll.
Proof. unfold collection. by intros ->. Qed.

Lemma collection_created (σ σ' : World) id d :
  firestore σ' = <["users" := <[id := d]> (collection σ "users")]> (firestore σ) →
  collection σ' "users" = <[id := d]> (collection σ "users").
Proof. intros Hfs. unfold collection at 1. by rewrite Hfs, lookup_insert_eq. Qed.

Lemma added_by_error r w msg :
  written w = [Text msg] → added_by r w = None.
Proof. intros Hw. unfold added_by. rewrite Hw. by case_decide. Qed.

Lemma added_by_added r w id u :
  Path r = "/addUser" → written w = [Json (added_json id u)] →
  added_by r w = Some (id, u).
Proof.
  intros Hp Hw. unfold added_by. rewrite decide_True by done. rewrite Hw.
  by destruct u.
Qed.

(** One request either leaves the documents as they were and is not a
    successful add, or it is a successful add and creates one document
    under an identifier that was free. *)
Lemma serve_step env r σ :
  (added_by r (serve env r σ).1 = None ∧
   firestore (serve env r σ).2 = firestore σ) ∨
  (∃ u, added_by r (serve env r σ).1 = Some (new_id env, u) ∧
        collection σ "users" !! new_id env = None ∧
        firestore (serve env r σ).2 =
          <["users" := <[new_id env := fields_of_User u]> (collection σ "users")]>
            (firestore σ)).
Proof.
  destruct (decide (Path r = "/addUser")) as [Ha|Ha].
  { rewrite (serve_addUser _ _ _ Ha).
    destruct (decide (Method r = http_MethodPost)) as [Hm|Hm].
    - destruct (Decode (Body r) zero_User) as [u [e|]] eqn:Hd.
      + left. rewrite (addUserHandler_bad_body _ _ _ _ _ _ Hm Hd). cbn [fst snd].
        split; [|done]. eapply added_by_error. by rewrite written_http_Error.
      + destruct (Collection_Add env "users" u σ) as [[docRef|e] σ'] eqn:Hadd.
        * right. exists u.
          rewrite (addUserHandler_created _ _ _ _ _ _ _ Hm Hd Hadd). cbn [fst snd].
          destruct (Collection_Add_inl _ _ _ _ _ _ Hadd) as (Hi & _ & Hfree & Hfs).
          split; [|done]. apply added_by_added; [done|].
          by rewrite written_Encode, Marshal_added, Hi.
        * left. rewrite (addUserHandler_create_fails _ _ _ _ _ _ _ Hm Hd Hadd).
          cbn [fst snd]. split; [|by eapply Collection_Add_inr].
          eapply added_by_error. by rewrite written_http_Error.
    - left. rewrite (addUserHandler_wrong_method _ _ _ _ Hm). cbn [fst snd].
      split; [|done]. eapply added_by_error. by rewrite written_http_Error. }
  left. split; [unfold added_by; by rewrite decide_False|].
  destruct (decide (Path r = "/getUser")) as [Hg|Hg].
  { rewrite (serve_getUser _ _ _ Hg).
    destruct (decide (Method r = http_MethodGet)) as [Hm|Hm];
      [|by rewrite (getUserHandler_wrong_method _ _ _ _ Hm)].
    destruct (decide (Values_Get (Query r) "id" = "")) as [Hid|Hid];
      [by rewrite (getUserHandler_no_id _ _ _ _ Hm Hid)|].
    rewrite (getUserHandler_lookup _ _ _ _ Hm Hid). cbv zeta.
    pose proof (Doc_Get_firestore env "users" (Values_Get (Query r) "id") σ) as Hfs.
    by destruct (Doc_Get env "users" (Values_Get (Query r) "id") σ) as [[doc|e] σ']. }
  destruct (decide (Path r = "/listUsers")) as [Hl|Hl].
  { rewrite (serve_listUsers _ _ _ Hl).
    destruct (decide (Method r = http_MethodGet)) as [Hm|Hm];
      [|by rewrite (listUsersHandler_wrong_method _ _ _ _ Hm)].
    rewrite (listUsersHandler_GET _ _ _ _ Hm). cbn [snd].
    apply Collection_Documents_firestore. }
  destruct (serve_unrouted env r Ha Hg Hl) as (w & _ & Hw). by rewrite Hw.
Qed.

(** Over a run, documents stay, every successful add is stored under
    its identifier, and the collection grows by at least the number of
    successful adds. *)
Lemma run_adds xs σ :
  (∀ k d, collection σ "users" !! k = Some d →
          collection (run xs σ).2 "users" !! k = Some d) ∧
  (∀ id u, (id, u) ∈ adds_of xs (run xs σ).1 →
           collection (run xs σ).2 "users" !! id = Some (fields_of_User u)) ∧
  size (collection σ "users") + length (adds_of xs (run xs σ).1)
    ≤ size (collection (run xs σ).2 "users").
Proof.
  revert σ. induction xs as [|[env r] xs IH]; intros σ.
  { cbn. split; [done|]. split; [|lia]. intros id u Hin. by apply elem_of_nil in Hin. }
  cbn [run]. pose proof (serve_step env r σ) as Hstep.
  destruct (serve env r σ) as [w σ1]. cbn [fst snd] in Hstep.
  destruct (IH σ1) as (Hkeep & Hadds & Hsize).
  destruct (run xs σ1) as [ws σ2]. cbn [fst snd] in *. cbn [adds_of].
  destruct Hstep as [[Hnone Hfs]|(u & Hsome & Hfree & Hfs)].
  - rewrite Hnone. rewrite (collection_unchanged _ _ "users" Hfs) in *. done.
  - rewrite Hsome. rewrite (collection_created _ _ _ _ Hfs) in *.
    split; [|split].
    + intros k d Hk. apply Hkeep. rewrite lookup_insert_ne; [done|].
      intros <-. congruence.
    + intros id u' [[= -> ->]|Hin]%elem_of_cons.
      * apply Hkeep. apply lookup_insert_eq.
      * by apply Hadds.
    + rewrite map_size_insert_None in Hsize by done. cbn [length]. lia.
Qed.

Lemma list_entry_roundtrip env i id u :
  roundtrips u →
  Marshal (list_entry (snapshot_of env i (id, fields_of_User u))) = id_user_json id u.
Proof.
  intros Hrt. destruct (Hrt (range_seed env i)) as (plan & Hplan & Hu).
  unfold list_entry, DataTo, snapshot_of.
  cbn [data seed Ref ID fst snd]. rewrite Hplan, Hu. reflexivity.
Qed.

Lemma elem_of_imap {A B} (f : nat → A → B) (l : list A) (x : A) :
  x ∈ l → ∃ i, f i x ∈ imap f l.
Proof.
  intros (i & Hi)%list_elem_of_lookup. exists i.
  apply list_elem_of_lookup. exists i. by rewrite list_lookup_imap, Hi.
Qed.

(** C4: when POST /addUser has returned identifier [id] for the record
    [u], then after any further requests a GET /getUser?id=[id] whose
    lookup does not fail in transit is answered with status 200 and the
    JSON object of "id" [id] and "user" [u].  (The identifier is
    non-empty and the store's decoding gives back what its encoding
    stored.) *)
Theorem add_then_get env r σ id u xs env' r' :
  added_by r (serve env r σ).1 = Some (id, u) →
  id ≠ "" → roundtrips u →
  Path r' = "/getUser" → Method r' = http_MethodGet →
  Values_Get (Query r') "id" = id →
  rpc_error env' = None →
  let σ1 := (serve env r σ).2 in
  let σ2 := (run xs σ1).2 in
  let w' := (serve env' r' σ2).1 in
  status w' = 200%Z ∧ written w' = [Json (id_user_json id u)].
Proof.
  intros Hadded Hid Hrt Hp Hm Hq Hrpc σ1 σ2 w'. subst σ1 σ2 w'.
  destruct (Hrt (range_seed env' 0)) as (plan & Hplan & Hu).
  assert (Hstored : collection (serve env r σ).2 "users" !! id = Some (fields_of_User u)).
  { destruct (serve_step env r σ) as [[Hnone _]|(u' & Hsome & _ & Hfs)]; [congruence|].
    rewrite Hadded in Hsome. injection Hsome as -> ->.
    rewrite (collection_created _ _ _ _ Hfs). apply lookup_insert_eq. }
  destruct (run_adds xs (serve env r σ).2) as (Hkeep & _ & _).
  apply Hkeep in Hstored.
  rewrite (serve_getUser _ _ _ Hp), getUserHandler_lookup by (by rewrite ?Hq).
  cbv zeta. rewrite Hq.
  pose proof (Doc_Get_result env' "users" id (run xs (serve env r σ).2).2) as Hres.
  rewrite Hrpc, Hstored in Hres.
  destruct (Doc_Get env' "users" id _) as [res σ']. cbn [fst] in Hres. subst res.
  cbn [fst]. unfold DataTo. cbn [data seed]. rewrite Hplan. cbn [fst]. rewrite Hu.
  split; [by apply status_Encode|]. by rewrite written_Encode, Marshal_id_user.
Qed.

(** C5: when the scan runs to the end, GET /listUsers on an empty
    collection is answered with the JSON array [[]], not [null]; and
    after a run of requests it is answered with an array that has at
    least as many elements as the run had successful adds and that holds
    the object of "id" and "user" of each of them. *)
Theorem listUsers_contents env r :
  Path r = "/listUsers" → Method r = http_MethodGet →
  scan_error env = None →
  (∀ σ, collection σ "users" = ∅ →
     status (serve env r σ).1 = 200%Z ∧
     written (serve env r σ).1 = [Json (JArray [])] ∧
     written (serve env r σ).1 ≠ [Json JNull]) ∧
  (∀ xs σ,
     (∀ id u, (id, u) ∈ adds_of xs (run xs σ).1 → roundtrips u) →
     ∃ arr,
       written (serve env r (run xs σ).2).1 = [Json (JArray arr)] ∧
       length (adds_of xs (run xs σ).1) ≤ length arr ∧
       ∀ id u, (id, u) ∈ adds_of xs (run xs σ).1 → id_user_json id u ∈ arr).
Proof.
  intros Hp Hm Hscan.
  assert (Hw : ∀ σ, written (serve env r σ).1 =
            [Json (JArray (Marshal <$> (list_entry <$>
               (imap (snapshot_of env) (map_to_list (collection σ "users"))))))]).
  { intros σ. by rewrite (written_listUsers _ _ _ Hp Hm), Collection_Documents_yielded, Hscan. }
  split.
  - intros σ Hempty. split; [by apply status_listUsers|].
    rewrite Hw, Hempty, map_to_list_empty. split; [reflexivity | discriminate].
  - intros xs σ Hrt.
    destruct (run_adds xs σ) as (_ & Hadds & Hsize).
    eexists. split; [apply Hw|]. split.
    + rewrite !length_fmap, length_imap, length_map_to_list. lia.
    + intros id u Hin.
      assert (Hdoc : (id, fields_of_User u) ∈ map_to_list (collection (run xs σ).2 "users")).
      { apply elem_of_map_to_list. by apply Hadds. }
      apply (elem_of_imap (snapshot_of env)) in Hdoc as (i & Hi).
      rewrite <- (list_entry_roundtrip env i id u) by eauto.
      by apply list_elem_of_fmap_2, list_elem_of_fmap_2.
Qed.

End Runs.

(** ** Instances on the concrete codec *)

Lemma demo_roundtrips (u : User) : @roundtrips demo u.
Proof.
  destruct u as [n e]. intros order. cbn [DataTo_plan fields_of_User demo].
  unfold demo_plan. destruct (Nat.even order).
  - exists [set_Name n; set_Email e]. split; reflexivity.
  - exists [set_Email e; set_Name n]. split; reflexivity.
Defined.

Lemma addUser_responses_witness :
  status (@serve demo (env_ok "1") post_ada empty_world).1 = 200%Z ∧
  status (@serve demo env_down post_ada empty_world).1 = 500%Z ∧
  status (@serve demo (env_ok "1") post_garbage empty_world).1 = 400%Z.
Proof.
  split; [|split].
  - destruct (@addUser_responses demo (env_ok "1") post_ada empty_world eq_refl eq_refl)
      as (_ & _ & _ & _ & Hok).
    apply (Hok ada {| ID := "x1" |}); vm_compute; reflexivity.
  - destruct (@addUser_responses demo env_down post_ada empty_world eq_refl eq_refl)
      as (_ & _ & _ & Hfail & _).
    apply (Hfail ada codes_Unavailable); vm_compute; reflexivity.
  - destruct (@addUser_responses demo (env_ok "1") post_garbage empty_world eq_refl eq_refl)
      as (H400 & _).
    apply H400. eexists. vm_compute. reflexivity.
Defined.

(** The add handler accepts a body that is not one JSON value: a record
    with other bytes behind it is answered with 200 and stored. *)
Lemma addUser_accepts_bytes_behind_the_record :
  Method post_ada_and_more = "POST" ∧ Path post_ada_and_more = "/addUser" ∧
  whole_json (Body post_ada_and_more) = false ∧
  status (@serve demo (env_ok "1") post_ada_and_more empty_world).1 = 200%Z ∧
  status (@serve demo (env_ok "1") post_ada_and_more empty_world).1 ≠ 400%Z ∧
  @collection demo (@serve demo (env_ok "1") post_ada_and_more empty_world).2 "users" !! "x1"
    = Some (demo_fields ada).
Proof. vm_compute. repeat split; try reflexivity. discriminate. Qed.


Lemma getUser_errors_witness :
  status (@serve demo (env_ok "") get_user_no_id empty_world).1 = 400%Z ∧
  status (@serve demo (env_ok "") (get_user "") empty_world).1 = 400%Z ∧
  status (@serve demo (env_ok "") (get_user "x9") empty_world).1 = 404%Z ∧
  status (@serve demo env_down (get_user "x9") empty_world).1 = 404%Z.
Proof.
  split; [|split; [|split]].
  - destruct (@getUser_errors demo (env_ok "") get_user_no_id empty_world eq_refl eq_refl)
      as (Habs & _).
    apply Habs. vm_compute. intros Hin. apply list_elem_of_singleton in Hin. discriminate.
  - destruct (@getUser_errors demo (env_ok "") (get_user "") empty_world eq_refl eq_refl)
      as (_ & Hempty & _).
    apply Hempty. reflexivity.
  - destruct (@getUser_errors demo (env_ok "") (get_user "x9") empty_world eq_refl eq_refl)
      as (_ & _ & _ & Hmissing & _).
    apply Hmissing; [discriminate | reflexivity | vm_compute; reflexivity].
  - destruct (@getUser_errors demo env_down (get_user "x9") empty_world eq_refl eq_refl)
      as (_ & _ & _ & _ & Hrpc).
    apply (Hrpc ltac:(discriminate) codes_Unavailable). reflexivity.
Defined.

Lemma add_then_get_witness :
  let σ1 := (@serve demo (env_ok "1") post_ada empty_world).2 in
  let σ2 := (@run demo two_adds σ1).2 in
  let w' := (@serve demo (env_ok "") (get_user "x1") σ2).1 in
  status w' = 200%Z ∧ written w' = [Json (id_user_json "x1" ada)].
Proof.
  apply (@add_then_get demo (env_ok "1") post_ada empty_world "x1" ada two_adds
           (env_ok "") (get_user "x1")).
  - vm_compute; reflexivity.
  - discriminate.
  - apply demo_roundtrips.
  - reflexivity.
  - reflexivity.
  - reflexivity.
  - reflexivity.
Defined.

Lemma listUsers_contents_witness :
  written (@serve demo (env_ok "") get_list empty_world).1 = [Json (JArray [])] ∧
  ∃ arr,
    written (@serve demo (env_ok "") get_list (@run demo two_adds empty_world).2).1
      = [Json (JArray arr)] ∧
    2 ≤ length arr ∧
    id_user_json "x1" ada ∈ arr ∧ id_user_json "x2" ada ∈ arr.
Proof.
  destruct (@listUsers_contents demo (env_ok "") get_list eq_refl eq_refl eq_refl)
    as (Hempty & Hadds).
  split.
  - apply (Hempty empty_world). vm_compute; reflexivity.
  - destruct (Hadds two_adds empty_world) as (arr & Hw & Hlen & Hin).
    { intros id u _. apply demo_roundtrips. }
    exists arr. split; [exact Hw|]. split; [exact Hlen|].
    split; apply Hin; vm_compute.
    + apply list_elem_of_here.
    + apply list_elem_of_further, list_elem_of_here.
Defined.

Lemma listUsers_stops_at_first_error_witness :
  let σ := (@run demo two_adds empty_world).2 in
  status (@serve demo (env_scan_breaks 1) get_list σ).1 = 200%Z ∧
  written (@serve demo (env_scan_breaks 1) get_list σ).1
    = [Json (JArray [id_user_json "x1" ada])].
Proof.
  intros σ.
  destruct (@listUsers_stops_at_first_error demo (env_scan_breaks 1) get_list σ
              eq_refl eq_refl) as (Hst & Hw & _ & Hcut & _).
  split; [exact Hst|].
  rewrite Hw, (Hcut 1 codes_Unavailable eq_refl). vm_compute; reflexivity.
Defined.

Lemma method_not_allowed_witness :
  status (@serve demo (env_ok "1") put_list empty_world).1 = 405%Z ∧
  (@serve demo (env_ok "1") put_list empty_world).2 = empty_world.
Proof.
  destruct (@method_not_allowed demo (env_ok "1") put_list empty_world)
    as (Hst & _ & Hσ & _).
  - left. split; [reflexivity | discriminate].
  - split; assumption.
Defined.

Lemma startup_witness :
  exit_code (@main demo (mkBoot (Some codes_Unavailable) None)) = Some 1%Z ∧
  serving (@main demo boot_ok) = Some ":8000".
Proof.
  split.
  - destruct (@startup demo (mkBoot (Some codes_Unavailable) None)) as (Hfail & _).
    apply (Hfail codes_Unavailable eq_refl).
  - destruct (@startup demo boot_ok) as (_ & Hok).
    apply (Hok eq_refl). reflexivity.
Defined.

Lemma unknown_path_gets_home_page_witness :
  status (@serve demo (env_ok "1") delete_foo empty_world).1 = 200%Z ∧
  written (@serve demo (env_ok "1") delete_foo empty_world).1 = [Text tmpl].
Proof.
  destruct (@unknown_path_gets_home_page demo (env_ok "1") delete_foo empty_world)
    as (_ & Hst & _ & Hw & _).
  - reflexivity.
  - discriminate.
  - discriminate.
  - discriminate.
  - split; assumption.
Defined.

(** A request for an unknown path is not always answered with the landing
    page: for a path that is not in canonical form the mux answers with a
    redirect, and no handler is run. *)
Lemma unknown_path_is_redirected :
  Path get_slash_slash_foo ≠ "/addUser" ∧ Path get_slash_slash_foo ≠ "/getUser" ∧
  Path get_slash_slash_foo ≠ "/listUsers" ∧
  status (@serve demo (env_ok "1") get_slash_slash_foo empty_world).1 = 301%Z ∧
  status (@serve demo (env_ok "1") get_slash_slash_foo empty_world).1 ≠ 200%Z ∧
  written (@serve demo (env_ok "1") get_slash_slash_foo empty_world).1 ≠ [Text tmpl] ∧
  status (@serve demo (env_ok "1") post_dot_dot_addUser empty_world).1 = 301%Z ∧
  (@serve demo (env_ok "1") post_dot_dot_addUser empty_world).2 = empty_world.
Proof. vm_compute. repeat split; try reflexivity; discriminate. Qed.

Lemma getUser_ignores_decode_error_witness :
  status (@serve demo (env_ok "") (get_user "b1") odd_world).1 = 200%Z ∧
  written (@serve demo (env_ok "") (get_user "b1") odd_world).1
    = [Json (id_user_json "b1" {| Name := ""; Email := "b@example.org" |})].
Proof.
  destruct (@getUser_ignores_decode_error demo (env_ok "") (get_user "b1") odd_world
              [("Email", inl "b@example.org"); ("Name", inr 7%Z)]
              [set_Email "b@example.org"] (other_error "cannot set type string"))
    as (Hst & Hw & _).
  - reflexivity.
  - reflexivity.
  - discriminate.
  - reflexivity.
  - vm_compute; reflexivity.
  - reflexivity.
  - split; assumption.
Defined.

(** * Further properties of the handlers *)

Section Responses.
Context `{Codecs}.




Lemma calls_Collection_Add env coll u σ :
  calls (Collection_Add env coll u σ).2 = calls σ ++ [call_Add coll u].
Proof.
  unfold Collection_Add. destruct (rpc_error env); [done|].
  by destruct (collection _ coll !! new_id env).
Qed.

Lemma calls_Doc_Get env coll id σ :
  calls (Doc_Get env coll id σ).2 = calls σ ++ [call_Get coll id].
Proof.
  unfold Doc_Get. destruct (rpc_error env); [done|].
  by destruct (collection _ coll !! id).
Qed.

Lemma calls_Collection_Documents env coll σ :
  calls (Collection_Documents env coll σ).2 = calls σ ++ [call_Documents coll].
Proof. unfold Collection_Documents. by destruct (scan_error env) as [[n e]|]. Qed.

(** The ways a request is answered: rejected before the store is reached,
    answered without any handler of the program or with the landing page,
    and one store call for each of add, get and list. *)
Lemma serve_cases env r σ :
  (∃ msg code, code ∈ [400%Z; 404%Z; 405%Z] ∧
     serve env r σ = (http_Error new_ResponseWriter msg code, σ)) ∨
  (∃ w, (page_response w ∨ redirect_response w ∨ bare_response w) ∧
     serve env r σ = (w, σ)) ∨
  (∃ u, serve env r σ =
     (match (Collection_Add env "users" u σ).1 with
      | inr _ => http_Error new_ResponseWriter "Error adding user" 500%Z
      | inl docRef =>
          Encode (Header_Set new_ResponseWriter "Content-Type" "application/json")
            (VMap [("message", VString "User added successfully");
                   ("id", VString (ID docRef)); ("user", VUser u)])
      end, (Collection_Add env "users" u σ).2)) ∨
  (∃ id, serve env r σ =
     (match (Doc_Get env "users" id σ).1 with
      | inr _ => http_Error new_ResponseWriter "User not found" 404%Z
      | inl doc =>
          Encode (Header_Set new_ResponseWriter "Content-Type" "application/json")
            (VMap [("id", VString id); ("user", VUser (DataTo doc zero_User).1)])
      end, (Doc_Get env "users" id σ).2)) ∨
  serve env r σ =
    (Encode (Header_Set new_ResponseWriter "Content-Type" "application/json")
       (VSlice (Some (list_entry <$> yielded (Collection_Documents env "users" σ).1))),
     (Collection_Documents env "users" σ).2).
Proof.
  destruct (decide (Path r = "/addUser")) as [Ha|Ha].
  { rewrite (serve_addUser _ _ _ Ha).
    destruct (decide (Method r = http_MethodPost)) as [Hm|Hm].
    - destruct (Decode (Body r) zero_User) as [u [e|]] eqn:Hd.
      + left. rewrite (addUserHandler_bad_body _ _ _ _ _ _ Hm Hd).
        eexists _, _. split; [|reflexivity]. set_solver.
      + right; right; left. exists u.
        destruct (Collection_Add env "users" u σ) as [[docRef|e] σ'] eqn:Hadd.
        * by rewrite (addUserHandler_created _ _ _ _ _ _ _ Hm Hd Hadd).
        * by rewrite (addUserHandler_create_fails _ _ _ _ _ _ _ Hm Hd Hadd).
    - left. rewrite (addUserHandler_wrong_method _ _ _ _ Hm).
      eexists _, _. split; [|reflexivity]. set_solver. }
  destruct (decide (Path r = "/getUser")) as [Hg|Hg].
  { rewrite (serve_getUser _ _ _ Hg).
    destruct (decide (Method r = http_MethodGet)) as [Hm|Hm].
    - destruct (decide (Values_Get (Query r) "id" = "")) as [Hid|Hid].
      + left. rewrite (getUserHandler_no_id _ _ _ _ Hm Hid).
        eexists _, _. split; [|reflexivity]. set_solver.
      + right; right; right; left. exists (Values_Get (Query r) "id").
        rewrite (getUserHandler_lookup _ _ _ _ Hm Hid). cbv zeta.
        by destruct (Doc_Get env "users" (Values_Get (Query r) "id") σ) as [[doc|e] σ'].
    - left. rewrite (getUserHandler_wrong_method _ _ _ _ Hm).
      eexists _, _. split; [|reflexivity]. set_solver. }
  destruct (decide (Path r = "/listUsers")) as [Hl|Hl].
  { rewrite (serve_listUsers _ _ _ Hl).
    destruct (decide (Method r = http_MethodGet)) as [Hm|Hm].
    - right; right; right; right. by rewrite (listUsersHandler_GET _ _ _ _ Hm).
    - left. rewrite (listUsersHandler_wrong_method _ _ _ _ Hm).
      eexists _, _. split; [|reflexivity]. set_solver. }
  destruct (serve_unrouted env r Ha Hg Hl) as (w & [Hw|[->|Hw]] & Hs).
  - right; left. exists w. split; [by left | apply Hs].
  - left. eexists _, _. split; [|apply Hs]. set_solver.
  - right; left. exists w. split; [by right | apply Hs].
Qed.


(** X2: a request makes at most one call to the store, and only on the
    collection "users"; a request answered with 400 or 405 makes none, and
    a request answered with 500 has made exactly one, a create. *)
Theorem store_calls_of_a_request env r σ :
  ∃ cs, calls (serve env r σ).2 = calls σ ++ cs ∧
    length cs ≤ 1 ∧
    (∀ c, c ∈ cs → call_collection c = "users") ∧
    (status (serve env r σ).1 = 400%Z ∨ status (serve env r σ).1 = 405%Z → cs = []) ∧
    (status (serve env r σ).1 = 500%Z → ∃ u, cs = [call_Add "users" u]).
Proof.
  destruct (serve_cases env r σ)
    as [(msg & code & Hcode & ->)|[(w & Hw & ->)|[(u & ->)|[(id & ->)| ->]]]];
    cbn [fst snd].
  - exists []. rewrite app_nil_r, status_http_Error by done.
    split; [done|]. split; [simpl; lia|]. split; [set_solver|]. split; [done|].
    intros ->. rewrite !elem_of_cons, elem_of_nil in Hcode. intuition discriminate.
  - exists []. rewrite app_nil_r.
    split; [done|]. split; [simpl; lia|]. split; [set_solver|]. split; [done|].
    intros H500. destruct Hw as [(Hst & _)|[(Hst & _)|(_ & [Hst|Hst])]];
      rewrite H500 in Hst; discriminate.
  - exists [call_Add "users" u]. rewrite calls_Collection_Add.
    split; [done|]. split; [simpl; lia|].
    split; [by intros c ->%list_elem_of_singleton|].
    split; [|by eauto].
    destruct (Collection_Add env "users" u σ).1;
      rewrite ?status_Encode, ?status_http_Error by done; intros [?|?]; discriminate.
  - exists [call_Get "users" id]. rewrite calls_Doc_Get.
    split; [done|]. split; [simpl; lia|].
    split; [by intros c ->%list_elem_of_singleton|].
    destruct (Doc_Get env "users" id σ).1;
      rewrite ?status_Encode, ?status_http_Error by done;
      (split; [intros [?|?]; discriminate | discriminate]).
  - exists [call_Documents "users"]. rewrite calls_Collection_Documents.
    split; [done|]. split; [simpl; lia|].
    split; [by intros c ->%list_elem_of_singleton|].
    rewrite status_Encode by done. split; [intros [?|?]; discriminate | discriminate].
Qed.

End Responses.

(** * Properties of runs *)

Section RunProperties.
Context `{Codecs}.

Lemma elem_of_adds_fst (l : list (string * User)) (k : string) :
  k ∈ l.*1 → ∃ u, (k, u) ∈ l.
Proof. intros ([k' u] & -> & Hin)%list_elem_of_fmap. by exists u. Qed.

(** Over a run the collection grows by exactly the successful adds, each
    under an identifier that was free at the start, no two alike; other
    collections are not touched. *)
Lemma run_exact xs σ :
  size (collection (run xs σ).2 "users")
    = size (collection σ "users") + length (adds_of xs (run xs σ).1) ∧
  (∀ id u, (id, u) ∈ adds_of xs (run xs σ).1 → collection σ "users" !! id = None) ∧
  NoDup (adds_of xs (run xs σ).1).*1 ∧
  (∀ coll, coll ≠ "users" → firestore (run xs σ).2 !! coll = firestore σ !! coll).
Proof.
  revert σ. induction xs as [|[env r] xs IH]; intros σ.
  { cbn. split; [lia|]. split; [by intros id u Hin%elem_of_nil|].
    split; [constructor | done]. }
  cbn [run]. pose proof (serve_step env r σ) as Hstep.
  destruct (serve env r σ) as [w σ1]. cbn [fst snd] in Hstep.
  destruct (IH σ1) as (Hsize & Hfree & Hnodup & Hother).
  destruct (run xs σ1) as [ws σ2]. cbn [fst snd] in *. cbn [adds_of].
  destruct Hstep as [[Hnone Hfs]|(u & Hsome & Hk & Hfs)].
  - rewrite Hnone. rewrite (collection_unchanged _ _ "users" Hfs) in *.
    rewrite Hfs in Hother. done.
  - rewrite Hsome. rewrite (collection_created _ _ _ _ Hfs) in *.
    rewrite map_size_insert_None in Hsize by done.
    split; [cbn [length]; lia|]. split; [|split].
    + intros id u' [[= -> ->]|Hin]%elem_of_cons; [done|].
      apply Hfree in Hin. by apply lookup_insert_None in Hin as [? _].
    + cbn [fmap list_fmap fst]. constructor; [|done].
      intros (u' & Hin)%elem_of_adds_fst. apply Hfree in Hin.
      by rewrite lookup_insert_eq in Hin.
    + intros coll Hne. rewrite (Hother coll Hne), Hfs.
      by rewrite lookup_insert_ne.
Qed.

(** X3: no run of requests loses or changes a document: a document of
    "users" is still there, with the same fields, after any requests, and
    every other collection stays as it was. *)
Theorem documents_are_never_lost xs σ :
  (∀ k d, collection σ "users" !! k = Some d →
          collection (run xs σ).2 "users" !! k = Some d) ∧
  (∀ coll, coll ≠ "users" → firestore (run xs σ).2 !! coll = firestore σ !! coll).
Proof.
  split.
  - by destruct (run_adds xs σ) as (Hkeep & _).
  - by destruct (run_exact xs σ) as (_ & _ & _ & Hother).
Qed.

(** X4: the successful adds of a run received pairwise distinct
    identifiers, none of which named a document before the run. *)
Theorem added_identifiers_are_fresh xs σ :
  NoDup (adds_of xs (run xs σ).1).*1 ∧
  ∀ id u, (id, u) ∈ adds_of xs (run xs σ).1 → collection σ "users" !! id = None.
Proof. by destruct (run_exact xs σ) as (_ & Hfree & Hnodup & _). Qed.

(** X5: when the scan runs to the end, the array of GET /listUsers after a
    run has exactly as many elements as the collection had documents
    before the run plus the successful adds of the run. *)
Theorem listUsers_counts env r xs σ :
  Path r = "/listUsers" → Method r = http_MethodGet → scan_error env = None →
  ∃ arr,
    written (serve env r (run xs σ).2).1 = [Json (JArray arr)] ∧
    length arr = size (collection σ "users") + length (adds_of xs (run xs σ).1).
Proof.
  intros Hp Hm Hscan. eexists. split.
  - by rewrite (written_listUsers _ _ _ Hp Hm), Collection_Documents_yielded, Hscan.
  - rewrite !length_fmap, length_imap, length_map_to_list.
    by destruct (run_exact xs σ) as (-> & _).
Qed.

Lemma Marshal_list_entry env i (kv : string * DocData) :
  Marshal (list_entry (snapshot_of env i kv))
    = id_user_json kv.1 (decoded kv.2 (range_seed env i)).
Proof.
  unfold list_entry, DataTo, snapshot_of, decoded. cbn [data seed Ref ID].
  by destruct (DataTo_plan kv.2 (range_seed env i)).
Qed.

Lemma take_imap {A B} (f : nat → A → B) (n : nat) (l : list A) :
  take n (imap f l) = imap f (take n l).
Proof.
  revert n f. induction l as [|x l IH]; intros [|n] f; try done.
  cbn [take]. rewrite !imap_cons. cbn [take]. by rewrite IH.
Qed.

(** X6: the array of GET /listUsers is made of stored documents only: it
    is the image of a list of (identifier, fields) pairs that all are
    documents of "users", with pairwise distinct identifiers, each rendered
    as the object of its identifier and its decoded record; it is never
    longer than the collection, and as long when the scan runs to the end. *)
Theorem listUsers_sound env r σ :
  Path r = "/listUsers" → Method r = http_MethodGet →
  ∃ docs : list (string * DocData),
    written (serve env r σ).1
      = [Json (JArray (imap (λ i kv, id_user_json kv.1 (decoded kv.2 (range_seed env i)))
                         docs))] ∧
    NoDup docs.*1 ∧
    (∀ k d, (k, d) ∈ docs → collection σ "users" !! k = Some d) ∧
    length docs ≤ size (collection σ "users") ∧
    (scan_error env = None → length docs = size (collection σ "users")).
Proof.
  intros Hp Hm.
  exists (match scan_error env with
          | None => map_to_list (collection σ "users")
          | Some (n, _) => take n (map_to_list (collection σ "users"))
          end).
  split; [|split; [|split; [|split]]].
  - rewrite (written_listUsers _ _ _ Hp Hm), Collection_Documents_yielded.
    destruct (scan_error env) as [[n e]|]; rewrite ?take_imap, !fmap_imap;
      do 3 f_equal; apply imap_ext; intros i kv _; apply Marshal_list_entry.
  - pose proof (NoDup_fst_map_to_list (collection σ "users")) as Hnd.
    destruct (scan_error env) as [[n e]|]; [|done].
    rewrite fmap_take. eapply sublist_NoDup; [done | apply sublist_take].
  - intros k d Hin. apply elem_of_map_to_list.
    destruct (scan_error env) as [[n e]|]; [|done].
    apply elem_of_take in Hin as (i & Hi & _). by eapply list_elem_of_lookup_2.
  - rewrite <- length_map_to_list.
    destruct (scan_error env) as [[n e]|]; [|done]. rewrite length_take. lia.
  - intros ->. apply length_map_to_list.
Qed.


(** What the store operations return and store depends on the documents
    only, not on the calls made before. *)
Lemma Collection_Add_ext env coll u (σ σ' : World) :
  firestore σ = firestore σ' →
  (Collection_Add env coll u σ).1 = (Collection_Add env coll u σ').1 ∧
  firestore (Collection_Add env coll u σ).2 = firestore (Collection_Add env coll u σ').2.
Proof.
  intros Hfs. unfold Collection_Add, collection, record_call. cbn [firestore].
  rewrite Hfs. destruct (rpc_error env); [done|].
  by destruct (default ∅ (firestore σ' !! coll) !! new_id env).
Qed.

Lemma addUserHandler_decoded env w r σ u :
  Method r = http_MethodPost → Decode (Body r) zero_User = (u, None) →
  addUserHandler env w r σ =
    (match (Collection_Add env "users" u σ).1 with
     | inr _ => http_Error w "Error adding user" http_StatusInternalServerError
     | inl docRef =>
         Encode (Header_Set w "Content-Type" "application/json")
           (VMap [("message", VString "User added successfully");
                  ("id", VString (ID docRef)); ("user", VUser u)])
     end, (Collection_Add env "users" u σ).2).
Proof.
  intros Hm Hd. destruct (Collection_Add env "users" u σ) as [[docRef|e] σ'] eqn:Hadd.
  - by rewrite (addUserHandler_created _ _ _ _ _ _ _ Hm Hd Hadd).
  - by rewrite (addUserHandler_create_fails _ _ _ _ _ _ _ Hm Hd Hadd).
Qed.

Lemma serve_ext env r (σ σ' : World) :
  firestore σ = firestore σ' →
  (serve env r σ).1 = (serve env r σ').1 ∧
  firestore (serve env r σ).2 = firestore (serve env r σ').2.
Proof.
  intros Hfs.
  destruct (decide (Path r = "/addUser")) as [Ha|Ha].
  { rewrite !(serve_addUser _ _ _ Ha).
    destruct (decide (Method r = http_MethodPost)) as [Hm|Hm];
      [|by rewrite !(addUserHandler_wrong_method _ _ _ _ Hm)].
    destruct (Decode (Body r) zero_User) as [u [e|]] eqn:Hd;
      [by rewrite !(addUserHandler_bad_body _ _ _ _ _ _ Hm Hd)|].
    rewrite !(addUserHandler_decoded _ _ _ _ _ Hm Hd). cbn [fst snd].
    destruct (Collection_Add_ext env "users" u σ σ' Hfs) as [-> ->]. done. }
  destruct (decide (Path r = "/getUser")) as [Hg|Hg].
  { rewrite !(serve_getUser _ _ _ Hg).
    destruct (decide (Method r = http_MethodGet)) as [Hm|Hm];
      [|by rewrite !(getUserHandler_wrong_method _ _ _ _ Hm)].
    destruct (decide (Values_Get (Query r) "id" = "")) as [Hid|Hid];
      [by rewrite !(getUserHandler_no_id _ _ _ _ Hm Hid)|].
    rewrite !(getUserHandler_lookup _ _ _ _ Hm Hid). cbv zeta.
    pose proof (Doc_Get_result env "users" (Values_Get (Query r) "id") σ) as Hr.
    pose proof (Doc_Get_result env "users" (Values_Get (Query r) "id") σ') as Hr'.
    pose proof (Doc_Get_firestore env "users" (Values_Get (Query r) "id") σ) as Hf.
    pose proof (Doc_Get_firestore env "users" (Values_Get (Query r) "id") σ') as Hf'.
    rewrite (collection_unchanged σ' σ "users") in Hr by done. rewrite <- Hr' in Hr.
    destruct (Doc_Get env "users" _ σ) as [res σ1].
    destruct (Doc_Get env "users" _ σ') as [res' σ1']. cbn [fst snd] in *. subst res.
    destruct res'; cbn [fst snd]; split; congruence. }
  destruct (decide (Path r = "/listUsers")) as [Hl|Hl].
  { rewrite !(serve_listUsers _ _ _ Hl).
    destruct (decide (Method r = http_MethodGet)) as [Hm|Hm];
      [|by rewrite !(listUsersHandler_wrong_method _ _ _ _ Hm)].
    rewrite !(listUsersHandler_GET _ _ _ _ Hm). cbn [fst snd].
    rewrite !Collection_Documents_yielded, !Collection_Documents_firestore.
    by rewrite (collection_unchanged σ' σ "users"). }
  destruct (serve_unrouted env r Ha Hg Hl) as (w & _ & Hw). by rewrite !Hw.
Qed.

Lemma run_ext xs (σ σ' : World) :
  firestore σ = firestore σ' →
  (run xs σ).1 = (run xs σ').1 ∧ firestore (run xs σ).2 = firestore (run xs σ').2.
Proof.
  revert σ σ'. induction xs as [|[env r] xs IH]; intros σ σ' Hfs; [done|].
  cbn [run]. destruct (serve_ext env r σ σ' Hfs) as [Hw Hfs1].
  destruct (serve env r σ) as [w σ1]. destruct (serve env r σ') as [w' σ1'].
  cbn [fst snd] in *. subst w'. destruct (IH σ1 σ1' Hfs1) as [Hws Hfs2].
  destruct (run xs σ1) as [ws σ2]. destruct (run xs σ1') as [ws' σ2'].
  cbn [fst snd] in *. by subst ws'.
Qed.

Lemma added_by_Some_inv env r σ a :
  added_by r (serve env r σ).1 = Some a →
  Path r = "/addUser" ∧ Method r = http_MethodPost ∧ status (serve env r σ).1 = 200%Z.
Proof.
  intros Hsome.
  assert (Ha : Path r = "/addUser").
  { unfold added_by in Hsome. by case_decide. }
  split; [done|]. rewrite (serve_addUser _ _ _ Ha) in *.
  destruct (decide (Method r = http_MethodPost)) as [Hm|Hm].
  - split; [done|].
    destruct (Decode (Body r) zero_User) as [u [e|]] eqn:Hd.
    + rewrite (addUserHandler_bad_body _ _ _ _ _ _ Hm Hd) in Hsome. cbn [fst] in Hsome.
      by erewrite added_by_error in Hsome by (by rewrite written_http_Error).
    + rewrite (addUserHandler_decoded _ _ _ _ _ Hm Hd) in *. cbn [fst] in *.
      destruct (Collection_Add env "users" u σ).1.
      * by apply status_Encode.
      * by erewrite added_by_error in Hsome by (by rewrite written_http_Error).
  - rewrite (addUserHandler_wrong_method _ _ _ _ Hm) in Hsome. cbn [fst] in Hsome.
    by erewrite added_by_error in Hsome by (by rewrite written_http_Error).
Qed.

(** X8: a request that is not a POST to /addUser answered with 200 (every
    GET, every rejected or failed add, every request for the landing page)
    leaves the documents as they were, and the requests served after it
    are answered as if it had not been made. *)
Theorem only_successful_adds_matter env r σ xs :
  Path r ≠ "/addUser" ∨ Method r ≠ http_MethodPost ∨ status (serve env r σ).1 ≠ 200%Z →
  firestore (serve env r σ).2 = firestore σ ∧
  (run xs (serve env r σ).2).1 = (run xs σ).1.
Proof.
  intros Hnot.
  assert (Hfs : firestore (serve env r σ).2 = firestore σ).
  { destruct (serve_step env r σ) as [[_ Hfs]|(u & Hsome & _)]; [done|].
    apply added_by_Some_inv in Hsome as (Hp & Hm & Hst).
    destruct Hnot as [Hn|[Hn|Hn]]; by destruct Hn. }
  split; [done|]. by apply run_ext.
Qed.

End RunProperties.

(** * Start-up when the port cannot be served *)

Section ListenFailure.
Context `{Codecs}.

(** X9: when the store client is initialised and ListenAndServe returns an
    error, the process exits with code 1 and serves nothing; the four
    routes were registered and the line announcing the server was already
    printed before listening was tried. *)
Theorem listen_failure boot e :
  NewClient_err boot = None → ListenAndServe_err boot = Some e →
  exit_code (main boot) = Some 1%Z ∧
  serving (main boot) = None ∧
  client (main boot) = true ∧
  (DefaultServeMux (main boot)).*1 = ["/"; "/addUser"; "/getUser"; "/listUsers"] ∧
  events (main boot) =
    [Println "✅ Connected to Firestore!";
     Println "🚀 Server started on http://localhost:8000/";
     Listen ":8000"; Fatal "" e].
Proof.
  intros Hnc Hls. unfold main, initFirestore. rewrite Hnc.
  unfold and_then, ListenAndServe_or_Fatal. cbn. rewrite Hls. cbn. done.
Qed.

End ListenFailure.

(** ** Instances on the concrete codec, continued *)

Lemma listUsers_counts_witness :
  ∃ arr,
    written (@serve demo (env_ok "") get_list (@run demo two_adds empty_world).2).1
      = [Json (JArray arr)] ∧
    length arr = 2.
Proof.
  destruct (@listUsers_counts demo (env_ok "") get_list two_adds empty_world
              eq_refl eq_refl eq_refl) as (arr & Hw & Hlen).
  exists arr. split; [exact Hw|]. rewrite Hlen. vm_compute; reflexivity.
Defined.

Lemma listUsers_sound_witness :
  ∃ docs : list (string * list (string * (string + Z))),
    written (@serve demo (env_scan_breaks 1) get_list (@run demo two_adds empty_world).2).1
      = [Json (JArray (imap (λ i kv, id_user_json kv.1
                                (@decoded demo kv.2 (range_seed (env_scan_breaks 1) i)))
                         docs))] ∧
    NoDup docs.*1 ∧
    (∀ k d, (k, d) ∈ docs →
       @collection demo (@run demo two_adds empty_world).2 "users" !! k = Some d) ∧
    length docs ≤ size (@collection demo (@run demo two_adds empty_world).2 "users") ∧
    (scan_error (env_scan_breaks 1) = None →
       length docs = size (@collection demo (@run demo two_adds empty_world).2 "users")).
Proof.
  apply (@listUsers_sound demo (env_scan_breaks 1) get_list
           (@run demo two_adds empty_world).2); reflexivity.
Defined.


Lemma only_successful_adds_matter_witness :
  firestore (@serve demo env_down post_ada empty_world).2 = firestore empty_world ∧
  (@run demo post_put_get (@serve demo env_down post_ada empty_world).2).1
    = (@run demo post_put_get empty_world).1.
Proof.
  apply (@only_successful_adds_matter demo env_down post_ada empty_world post_put_get).
  right; right. vm_compute. discriminate.
Defined.

Lemma listen_failure_witness :
  exit_code (@main demo boot_port_taken) = Some 1%Z ∧
  serving (@main demo boot_port_taken) = None ∧
  client (@main demo boot_port_taken) = true ∧
  (DefaultServeMux (@main demo boot_port_taken)).*1
    = ["/"; "/addUser"; "/getUser"; "/listUsers"] ∧
  events (@main demo boot_port_taken) =
    [Println "✅ Connected to Firestore!";
     Println "🚀 Server started on http://localhost:8000/";
     Listen ":8000"; Fatal "" (other_error "address already in use")].
Proof.
  apply (@listen_failure demo boot_port_taken (other_error "address already in use"));
    reflexivity.
Defined.
